(** * Rollout-batching training driver (ppo/train_single.py)

    A shallow embedding of the driver script of the trainer: the
    module-level configuration checks, the [num_rollouts] normalisation,
    the update count, and the [main] loop with its scheduler gate,
    checkpoint, logging and evaluation phases.

    Conventions.
    - Python integers are [Z]; [//] and [%] are the floor division and
      modulus of [Z] and raise [ZeroDivisionError] on a zero divisor.
    - Python floats ([lr], [clip_param], episode returns, tensor entries)
      are idealised as rationals [Q]; nothing below depends on rounding.
    - A tensor whose first dimension is the batch is a list of rows; the
      time-major buffers of the rollout storage are lists of such batches.
    - The vectorised environments, the policy network, the agent and the
      methods of the rollout storage live in other modules of the
      repository; the driver is embedded over an arbitrary [World] that
      supplies them.
    - A [while] loop takes fuel; running out of fuel is the outcome
      [Diverge], distinct from every exception. *)

From Stdlib Require Import String ZArith QArith List Bool Lia Lqa.
Import ListNotations.

Local Open Scope Z_scope.

(** ** Outcomes of running Python code *)

Inductive exn : Type :=
| AssertionError (msg : string)
| ZeroDivisionError
| IndexError.

Inductive result (A : Type) : Type :=
| Ok (a : A)
| Raise (e : exn)
| Diverge.

Arguments Ok {A} a.
Arguments Raise {A} e.
Arguments Diverge {A}.

Definition bind {A B : Type} (r : result A) (k : A -> result B) : result B :=
  match r with
  | Ok a => k a
  | Raise e => Raise e
  | Diverge => Diverge
  end.

Declare Scope py_scope.
Delimit Scope py_scope with py.
Notation "x <- c ;; k" := (bind c (fun x => k))
  (at level 100, c at next level, right associativity) : py_scope.
Notation "' p <- c ;; k" := (bind c (fun x => let p := x in k))
  (at level 100, p pattern, c at next level, right associativity) : py_scope.
Local Open Scope py_scope.

(** [a // b] and [a % b] on Python integers. *)
Definition py_floordiv (a b : Z) : result Z :=
  if b =? 0 then Raise ZeroDivisionError else Ok (a / b).

Definition py_mod (a b : Z) : result Z :=
  if b =? 0 then Raise ZeroDivisionError else Ok (a mod b).

(** [assert c, msg] *)
Definition py_assert (c : bool) (msg : string) : result unit :=
  if c then Ok tt else Raise (AssertionError msg).

(** [x in [s1, ..., sn]] on strings. *)
Definition str_in (x : string) (l : list string) : bool :=
  existsb (String.eqb x) l.

(** [range(n)]: empty when [n <= 0]. *)
Definition py_range (n : Z) : list Z :=
  map Z.of_nat (seq 0 (Z.to_nat n)).

(** ** Command-line arguments

    The fields of [args] that the driver branches on or computes with;
    [num_env_steps] is the value of [int(args.num_env_steps)]. *)

Record Args : Type := mkArgs {
  algo : string;
  recurrent_policy : bool;
  num_rollouts : Z;
  num_processes : Z;
  num_env_steps : Z;
  num_steps : Z;
  use_linear_lr_decay : bool;
  use_linear_clip_decay : bool;
  lr : Q;
  clip_param : Q;
  save_interval : Z;
  save_dir : string;
  log_interval : Z;
  eval_interval : option Z;
  vis : bool;
  vis_interval : Z;
  seed : Z;
  load_policy : option string
}.

Definition set_num_rollouts (a : Args) (n : Z) : Args :=
  mkArgs (algo a) (recurrent_policy a) n (num_processes a)
         (num_env_steps a) (num_steps a)
         (use_linear_lr_decay a) (use_linear_clip_decay a)
         (lr a) (clip_param a) (save_interval a) (save_dir a)
         (log_interval a) (eval_interval a) (vis a) (vis_interval a)
         (seed a) (load_policy a).

(** ** Module-level start-up code (lines 23-35) *)

(** Lines 30-31:
    [while args.num_rollouts < 30: args.num_rollouts += args.num_processes] *)
Fixpoint raise_rollouts (fuel : nat) (procs n : Z) : result Z :=
  match fuel with
  | O => Diverge
  | S fuel' =>
      if n <? 30 then raise_rollouts fuel' procs (n + procs) else Ok n
  end.

(** Lines 28-31. *)
Definition normalize_num_rollouts (fuel : nat) (a : Args) : result Args :=
  if num_rollouts a =? 0 then
    n <- raise_rollouts fuel (num_processes a) (num_rollouts a) ;;
    Ok (set_num_rollouts a n)
  else Ok a.

Definition msg_recurrent : string :=
  "Recurrent policy is not implemented for ACKTR".
Definition msg_divisible : string :=
  "num_rollouts must be divisable by num_processes".

(** Lines 23-33: the asserts and the normalisation, in program order. *)
Definition validate_args (fuel : nat) (a : Args) : result Args :=
  _ <- py_assert (str_in (algo a) ["a2c"; "ppo"; "acktr"]%string) EmptyString ;;
  _ <- (if recurrent_policy a
        then py_assert (str_in (algo a) ["a2c"; "ppo"]%string) msg_recurrent
        else Ok tt) ;;
  a1 <- normalize_num_rollouts fuel a ;;
  _ <- (if num_rollouts a1 >? 0
        then m <- py_mod (num_rollouts a1) (num_processes a1) ;;
             py_assert (m =? 0) msg_divisible
        else Ok tt) ;;
  Ok a1.

(** Line 35:
    [num_updates = int(args.num_env_steps) // args.num_steps // args.num_processes] *)
Definition compute_num_updates (a : Args) : result Z :=
  q <- py_floordiv (num_env_steps a) (num_steps a) ;;
  py_floordiv q (num_processes a).

(** Lines 23-35: the effective arguments and the update count. *)
Definition startup (fuel : nat) (a : Args) : result (Args * Z) :=
  a1 <- validate_args fuel a ;;
  n <- compute_num_updates a1 ;;
  Ok (a1, n).

(** Line 121: the [maxlen] of the [episode_rewards] deque, read from the
    arguments as they are when [main] runs. *)
Definition deque_len (a : Args) : Z :=
  if num_rollouts a >? 0 then num_rollouts a
  else if num_processes a >? 10 then num_processes a else 10.

(** Line 111: the width of the rollout storage. *)
Definition storage_width (a : Args) : Z :=
  if num_rollouts a >? 0 then num_rollouts a else num_processes a.

(** ** Tensors and the bounded log *)

Definition Row : Type := list Q.
Definition Batch : Type := list Row.
Definition Buffer : Type := list Batch.

(** [t[i]] on the first dimension, negative [i] counting from the end. *)
Definition slot (t : Buffer) (i : Z) : result Batch :=
  let n := Z.of_nat (length t) in
  let k := if i <? 0 then i + n else i in
  if (k <? 0) || (n <=? k) then Raise IndexError
  else match nth_error t (Z.to_nat k) with
       | Some b => Ok b
       | None => Raise IndexError
       end.

(** [b[:m]] on the first dimension. *)
Definition take {A : Type} (m : Z) (b : list A) : list A :=
  if m <? 0 then firstn (length b - Z.to_nat (- m)) b
  else firstn (Z.to_nat m) b.

(** [t[0].copy_(x)] for a source of the slot's shape. *)
Definition copy_slot0 (t : Buffer) (x : Batch) : result Buffer :=
  match t with
  | [] => Raise IndexError
  | _ :: t' => Ok (x :: t')
  end.

(** [torch.zeros(n, m)] *)
Definition zeros (n m : Z) : Batch :=
  repeat (repeat 0%Q (Z.to_nat m)) (Z.to_nat n).

(** [torch.FloatTensor([[0.0] if done_ else [1.0] for done_ in done])] *)
Definition masks_of_done (done : list bool) : Batch :=
  map (fun done_ : bool => if done_ then [0%Q] else [1%Q]) done.

(** [collections.deque(maxlen=m)] with [append]. *)
Record Deque : Type := mkDeque {
  maxlen : Z;
  items : list Q
}.

Definition deque_new (m : Z) : Deque := mkDeque m [].

Definition deque_append (d : Deque) (x : Q) : Deque :=
  let l := items d ++ [x] in
  mkDeque (maxlen d) (skipn (length l - Z.to_nat (maxlen d)) l).

Definition deque_size (d : Deque) : Z := Z.of_nat (length (items d)).

(** The [info] dictionary of one worker: only the ['episode'] entry, with
    its return [r], is read by the driver. *)
Record Info : Type := mkInfo {
  episode : option Q
}.

(** Lines 151-153 and 231-233: the returns of the episodes that finished
    in this step, in worker order. *)
Definition finished_returns (infos : list Info) : list Q :=
  flat_map (fun info => match episode info with
                        | Some r => [r]
                        | None => []
                        end) infos.

(** ** Rollout storage

    The three buffers the driver indexes itself, and the remaining state
    of the storage object. *)

Record Storage (X : Type) : Type := mkStorage {
  obs : Buffer;
  recurrent_hidden_states : Buffer;
  masks : Buffer;
  others : X
}.

Arguments mkStorage {X} _ _ _ _.
Arguments obs {X} _.
Arguments recurrent_hidden_states {X} _.
Arguments masks {X} _.
Arguments others {X} _.

(** ** Collaborators outside the driver *)

Record World : Type := mkWorld {
  Env : Type;
  Policy : Type;
  Aux : Type;
  (** [make_vec_envs(env_name, seed, num_processes, gamma, log_dir,
      add_timestep, device, allow_early_resets)]: the seed, the number of
      processes, whether the log directory is [eval_log_dir], and the
      last flag *)
  make_vec_envs : Z -> Z -> bool -> bool -> Env;
  env_reset : Env -> Env * Batch;
  env_step : Env -> Batch -> Env * (Batch * Batch * list bool * list Info);
  (** [vec_norm.eval(); vec_norm.ob_rms = get_vec_normalize(envs).ob_rms] *)
  share_ob_rms : Env -> Env -> Env;
  (** [torch.load(args.load_policy)] followed by the [ob_rms] hand-over *)
  torch_load : string -> Env -> Policy * Env;
  (** [Policy(...)], [actor_critic.to(device)] and the [algo] constructor *)
  new_policy : Args -> Env -> Policy;
  recurrent_hidden_state_size : Policy -> Z;
  (** [actor_critic.act(obs, hidden, masks, deterministic)] returning
      value, action, action log-probability and hidden state *)
  act : Policy -> Batch -> Batch -> Batch -> bool ->
        Batch * Batch * Batch * Batch;
  get_value : Policy -> Batch -> Batch -> Batch -> Batch;
  (** [agent.optimizer.lr], read for ACKTR only *)
  optimizer_lr : Policy -> Q;
  (** [agent.update(rollouts)] under the current learning rate and clip *)
  agent_update : Policy -> Q -> Q -> Storage Aux -> Policy;
  (** [RolloutStorage(num_steps, width, ...)] *)
  new_storage : Z -> Z -> Env -> Policy -> Storage Aux;
  (** [rollouts.insert(obs, hidden, action, log_prob, value, reward, masks)] *)
  insert : Storage Aux -> Batch -> Batch -> Batch -> Batch -> Batch ->
           Batch -> Batch -> Storage Aux;
  compute_returns : Storage Aux -> Batch -> Storage Aux;
  after_update : Storage Aux -> Storage Aux
}.

(** Modelled from the spec: [update_linear_schedule] of the utils module is
    not part of the driver; the spec has it decay the learning rate linearly
    toward 0 as the index reaches the total. *)
Definition update_linear_schedule (epoch total : Z) (initial_lr : Q) : Q :=
  (initial_lr * (1 - inject_Z epoch / inject_Z total))%Q.

(** ** Observable steps of the driver

    The calls the driver makes on its collaborators, in program order:
    environment construction, the two schedules of lines 127-136, the
    policy call with the three batches it is given, the environment step,
    the storage insert, the [continue] of line 162, the four calls of
    lines 164-169 (the update under the learning rate and clip in force),
    [torch.save], the log line, the clearing branch of lines 235-236, and
    the closing and report of an evaluation, and the plot. *)

Inductive Event : Type :=
| EvMakeVecEnvs (seed_ procs : Z) (eval_dir allow_early_resets : bool)
| EvSchedule (epoch total : Z) (initial_lr : Q)
| EvClip (value : Q)
| EvAct (o h m : Batch) (deterministic : bool)
| EvStep (action : Batch)
| EvInsert
| EvContinue
| EvGetValue
| EvComputeReturns
| EvUpdate (lr_ clip_ : Q)
| EvAfterUpdate
| EvSave (j : Z)
| EvPrint (j total_num_steps : Z)
| EvResetEvalRewards
| EvClose
| EvEvalPrint (episodes : nat)
| EvVisdom (j : Z).

(** ** The driver [main] (lines 66-250) *)

Section Driver.

Variable W : World.
(** The arguments after start-up, and [num_updates] of line 35. *)
Variable a : Args.
Variable num_updates : Z.

(** The variables of [main] that live across loop iterations.  [cur_lr]
    is the learning rate held by the optimiser's parameter groups and
    [cur_clip] is [agent.clip_param]; only the driver assigns them. *)
Record State : Type := mkState {
  envs : Env W;
  actor_critic : Policy W;
  cur_lr : Q;
  cur_clip : Q;
  rollouts : Storage (Aux W);
  episode_rewards : Deque
}.

(** Line 116: the batch copied into slot 0 when [num_rollouts > 0]. *)
Definition tiled_obs (ob : Batch) : result Batch :=
  q <- py_floordiv (num_rollouts a) (num_processes a) ;;
  m <- py_mod (num_rollouts a) (num_processes a) ;;
  Ok (concat (repeat ob (Z.to_nat q) ++ [take m ob])).

(** Lines 96-108: the learning rate the agent is built with. *)
Definition initial_lr (p : Policy W) : Q :=
  if String.eqb (algo a) "acktr" then optimizer_lr W p else lr a.

(** Lines 75-108: the training environments and the policy with its
    agent. *)
Definition setup_policy : Policy W * Env W :=
  let envs0 := make_vec_envs W (seed a) (num_processes a) false false in
  match load_policy a with
  | Some path => torch_load W path envs0
  | None => (new_policy W a envs0, envs0)
  end.

(** Lines 67-122.  The one-worker environment of lines 75-81 is built,
    stepped once and dropped; it leaves nothing behind but its
    construction. *)
Definition setup : result (State * list Event) :=
  let '(policy, envs1) := setup_policy in
  let store := new_storage W (num_steps a) (storage_width a) envs1 policy in
  let '(envs2, ob) := env_reset W envs1 in
  first <- (if num_rollouts a >? 0 then tiled_obs ob else Ok ob) ;;
  obs' <- copy_slot0 (obs store) first ;;
  let store' := mkStorage obs' (recurrent_hidden_states store)
                          (masks store) (others store) in
  Ok (mkState envs2 policy (initial_lr policy) (clip_param a) store'
              (deque_new (deque_len a)),
      [EvMakeVecEnvs (seed a) 1 false false;
       EvMakeVecEnvs (seed a) (num_processes a) false false]).

(** Lines 127-136: the linear schedules, applied at the head of the
    iteration. *)
Definition decay_phase (j : Z) (s : State) : State * list Event :=
  let '(lr1, ev1) :=
    if use_linear_lr_decay a then
      let base := if String.eqb (algo a) "acktr"
                  then optimizer_lr W (actor_critic s) else lr a in
      (update_linear_schedule j num_updates base,
       [EvSchedule j num_updates base])
    else (cur_lr s, []) in
  let '(clip1, ev2) :=
    if String.eqb (algo a) "ppo" && use_linear_clip_decay a then
      let c := (clip_param a * (1 - inject_Z j / inject_Z num_updates))%Q in
      (c, [EvClip c])
    else (cur_clip s, []) in
  (mkState (envs s) (actor_critic s) lr1 clip1 (rollouts s)
           (episode_rewards s),
   ev1 ++ ev2).

(** Lines 141-158: one step of the collection loop.  (The lists
    [reward_list_robot1] and [reward_list_robot2] of lines 138-139 are
    never read and are left out.) *)
Definition collect_step (step : Z) (s : State) : result (State * list Event) :=
  o <- slot (obs (rollouts s)) step ;;
  h <- slot (recurrent_hidden_states (rollouts s)) step ;;
  m <- slot (masks (rollouts s)) step ;;
  let o' := take (num_processes a) o in
  let h' := take (num_processes a) h in
  let m' := take (num_processes a) m in
  let '(value, action, action_log_prob, hidden) :=
    act W (actor_critic s) o' h' m' false in
  let '(envs', (ob, reward, done, infos)) := env_step W (envs s) action in
  let log := fold_left deque_append (finished_returns infos)
                       (episode_rewards s) in
  let store := insert W (rollouts s) ob hidden action action_log_prob
                      value reward (masks_of_done done) in
  Ok (mkState envs' (actor_critic s) (cur_lr s) (cur_clip s) store log,
      [EvAct o' h' m' false; EvStep action; EvInsert]).

(** Line 140: [for step in range(args.num_steps)]. *)
Fixpoint collect_steps (steps : list Z) (s : State)
  : result (State * list Event) :=
  match steps with
  | [] => Ok (s, [])
  | step :: steps' =>
      ' (s1, ev1) <- collect_step step s ;;
      ' (s2, ev2) <- collect_steps steps' s1 ;;
      Ok (s2, ev1 ++ ev2)
  end.

Definition collection_phase (s : State) : result (State * list Event) :=
  collect_steps (py_range (num_steps a)) s.

(** Line 160: the scheduler gate; [true] takes the [continue]. *)
Definition skip_update (j : Z) : result bool :=
  if num_rollouts a >? 0 then
    period <- py_floordiv (num_rollouts a) (num_processes a) ;;
    k <- py_mod j period ;;
    Ok (negb (k =? 0))
  else Ok false.

(** Lines 164-169. *)
Definition update_phase (s : State) : result (State * list Event) :=
  o <- slot (obs (rollouts s)) (-1) ;;
  h <- slot (recurrent_hidden_states (rollouts s)) (-1) ;;
  m <- slot (masks (rollouts s)) (-1) ;;
  let next_value := get_value W (actor_critic s) o h m in
  let store := compute_returns W (rollouts s) next_value in
  let policy := agent_update W (actor_critic s) (cur_lr s) (cur_clip s)
                             store in
  Ok (mkState (envs s) policy (cur_lr s) (cur_clip s)
              (after_update W store) (episode_rewards s),
      [EvGetValue; EvComputeReturns; EvUpdate (cur_lr s) (cur_clip s);
       EvAfterUpdate]).

(** Lines 172-185. *)
Definition save_phase (j : Z) : result (list Event) :=
  m <- py_mod j (save_interval a) ;;
  if ((m =? 0) || (j =? num_updates - 1))
     && negb (String.eqb (save_dir a) EmptyString)
  then Ok [EvSave j] else Ok [].

(** Lines 187-199. *)
Definition log_phase (j : Z) (s : State) : result (list Event) :=
  let total_num_steps := (j + 1) * num_processes a * num_steps a in
  m <- py_mod j (log_interval a) ;;
  if (m =? 0) && (deque_size (episode_rewards s) >? 1)
  then Ok [EvPrint j total_num_steps] else Ok [].

(** The variables of the evaluation loop. *)
Record EvalState : Type := mkEvalState {
  eval_envs : Env W;
  eval_obs : Batch;
  eval_recurrent_hidden_states : Batch;
  eval_masks : Batch;
  eval_episode_rewards : list Q;
  eval_reward_list_robot1 : list (list Q);
  eval_reward_list_robot2 : list (list Q)
}.

(** Lines 222-236: the body of the evaluation loop. *)
Definition eval_body (p : Policy W) (e : EvalState) : EvalState * list Event :=
  let '(_, action, _, hidden) :=
    act W p (eval_obs e) (eval_recurrent_hidden_states e)
        (eval_masks e) true in
  let '(envs', (ob, reward, done, infos)) :=
    env_step W (eval_envs e) action in
  let masks' := masks_of_done done in
  let reset_rewards := false in
  let rewards := eval_episode_rewards e ++ finished_returns infos in
  let '(l1, l2, ev) :=
    if reset_rewards : bool then
      (repeat [] (Z.to_nat (num_processes a)),
       repeat [] (Z.to_nat (num_processes a)),
       [EvResetEvalRewards])
    else (eval_reward_list_robot1 e, eval_reward_list_robot2 e, []) in
  (mkEvalState envs' ob hidden masks' rewards l1 l2,
   [EvAct (eval_obs e) (eval_recurrent_hidden_states e) (eval_masks e) true;
    EvStep action] ++ ev).

(** Line 221: [while (len(eval_episode_rewards) < 10)]. *)
Fixpoint eval_loop (fuel : nat) (p : Policy W) (e : EvalState)
  : result (EvalState * list Event) :=
  match fuel with
  | O => Diverge
  | S fuel' =>
      if Z.of_nat (length (eval_episode_rewards e)) <? 10 then
        let '(e1, ev1) := eval_body p e in
        ' (e2, ev2) <- eval_loop fuel' p e1 ;;
        Ok (e2, ev1 ++ ev2)
      else Ok (e, [])
  end.

(** Lines 204-220: the state in which the evaluation loop starts. *)
Definition eval_start (s : State) : EvalState :=
  let fresh := make_vec_envs W (seed a + num_processes a)
                             (num_processes a) true true in
  let fresh' := share_ob_rms W fresh (envs s) in
  let '(envs', ob) := env_reset W fresh' in
  mkEvalState envs' ob
    (zeros (num_processes a)
           (recurrent_hidden_state_size W (actor_critic s)))
    (zeros (num_processes a) 1)
    []
    (repeat [] (Z.to_nat (num_processes a)))
    (repeat [] (Z.to_nat (num_processes a))).

(** Lines 204-242: one evaluation. *)
Definition run_evaluation (fuel : nat) (s : State)
  : result (EvalState * list Event) :=
  ' (e, ev) <- eval_loop fuel (actor_critic s) (eval_start s) ;;
  Ok (e,
      [EvMakeVecEnvs (seed a + num_processes a) (num_processes a) true true]
      ++ ev
      ++ [EvClose; EvEvalPrint (length (eval_episode_rewards e))]).

(** Lines 201-203: the condition of the evaluation, left to right. *)
Definition eval_due (j : Z) (s : State) : result bool :=
  match eval_interval a with
  | None => Ok false
  | Some interval =>
      if deque_size (episode_rewards s) >? 1 then
        m <- py_mod j interval ;;
        Ok (m =? 0)
      else Ok false
  end.

(** Lines 201-242. *)
Definition eval_phase (fuel : nat) (j : Z) (s : State) : result (list Event) :=
  due <- eval_due j s ;;
  if due : bool then
    ' (_, ev) <- run_evaluation fuel s ;;
    Ok ev
  else Ok [].

(** Lines 244-250. *)
Definition vis_phase (j : Z) : result (list Event) :=
  if vis a then
    m <- py_mod j (vis_interval a) ;;
    if m =? 0 then Ok [EvVisdom j] else Ok []
  else Ok [].

(** Lines 164-250: what an iteration does once the gate lets it pass. *)
Definition after_gate (fuel : nat) (j : Z) (s : State)
  : result (State * list Event) :=
  ' (s1, ev_update) <- update_phase s ;;
  ev_save <- save_phase j ;;
  ev_log <- log_phase j s1 ;;
  ev_eval <- eval_phase fuel j s1 ;;
  ev_vis <- vis_phase j ;;
  Ok (s1, ev_update ++ ev_save ++ ev_log ++ ev_eval ++ ev_vis).

(** Lines 127-250: the body of [for j in range(num_updates)]. *)
Definition cycle (fuel : nat) (j : Z) (s : State)
  : result (State * list Event) :=
  let '(s1, ev_decay) := decay_phase j s in
  ' (s2, ev_collect) <- collection_phase s1 ;;
  skip <- skip_update j ;;
  if skip : bool then Ok (s2, ev_decay ++ ev_collect ++ [EvContinue])
  else
    ' (s3, ev_rest) <- after_gate fuel j s2 ;;
    Ok (s3, ev_decay ++ ev_collect ++ ev_rest).

(** Line 125: the loop, keeping the steps of each iteration under its
    index. *)
Fixpoint run_cycles (fuel : nat) (js : list Z) (s : State)
  : result (State * list (Z * list Event)) :=
  match js with
  | [] => Ok (s, [])
  | j :: js' =>
      ' (s1, ev) <- cycle fuel j s ;;
      ' (s2, log) <- run_cycles fuel js' s1 ;;
      Ok (s2, (j, ev) :: log)
  end.

(** Lines 66-250. *)
Definition main (fuel : nat)
  : result (State * list Event * list (Z * list Event)) :=
  ' (s0, ev0) <- setup ;;
  ' (s, log) <- run_cycles fuel (py_range num_updates) s0 ;;
  Ok (s, ev0, log).

End Driver.

(** The script: start-up, then [main]. *)
Definition train_single (W : World) (fuel : nat) (a : Args)
  : result (State W * list Event * list (Z * list Event)) :=
  ' (a1, n) <- startup fuel a ;;
  main W a1 n fuel.

Arguments envs {W} _.
Arguments actor_critic {W} _.
Arguments cur_lr {W} _.
Arguments cur_clip {W} _.
Arguments rollouts {W} _.
Arguments episode_rewards {W} _.
Arguments eval_envs {W} _.
Arguments eval_obs {W} _.
Arguments eval_recurrent_hidden_states {W} _.
Arguments eval_masks {W} _.
Arguments eval_episode_rewards {W} _.
Arguments eval_reward_list_robot1 {W} _.
Arguments eval_reward_list_robot2 {W} _.

(** ** Notions the statements use *)

(** [r] is the smallest positive multiple of [procs] that is at least 30. *)
Definition least_multiple_from_30 (procs r : Z) : Prop :=
  (procs | r) /\ 0 < r /\ 30 <= r /\
  forall m, (procs | m) -> 0 < m -> 30 <= m -> r <= m.


(** The sub-window index of cycle [j]. *)
Definition sub_window (a : Args) (j : Z) : Z :=
  j mod (num_rollouts a / num_processes a).

(** The learning update ran in these steps. *)
Definition update_fired (ev : list Event) : Prop :=
  exists l c, In (EvUpdate l c) ev.

(** An evaluation ran in these steps. *)
Definition evaluation_ran (ev : list Event) : Prop :=
  In EvClose ev.

(** The evaluation state after [k] passes through the loop body. *)
Fixpoint eval_iter (W : World) (a : Args) (k : nat) (p : Policy W)
  (e : EvalState W) : EvalState W :=
  match k with
  | O => e
  | S k' => eval_iter W a k' p (fst (eval_body W a p e))
  end.

(** The policy calls among the steps, with their deterministic flag. *)
Definition act_flags (ev : list Event) : list bool :=
  flat_map (fun e => match e with
                     | EvAct _ _ _ d => [d]
                     | _ => []
                     end) ev.

(** ** A small world to run the driver in

    Two workers' worth of trivial observations; every worker finishes an
    episode at every step, and the policy echoes its input. *)

Definition demo_world : World :=
  mkWorld (Z * Z) unit unit
    (fun _ procs _ _ => (procs, 0))
    (fun e => (e, zeros (fst e) 1))
    (fun e _ =>
       ((fst e, snd e + 1),
        (zeros (fst e) 1, zeros (fst e) 1,
         repeat true (Z.to_nat (fst e)),
         repeat (mkInfo (Some (inject_Z (snd e)))) (Z.to_nat (fst e)))))
    (fun e _ => e)
    (fun _ e => (tt, e))
    (fun _ _ => tt)
    (fun _ => 1)
    (fun _ o h _ _ => (o, o, o, h))
    (fun _ o _ _ => o)
    (fun _ => 1 # 4)
    (fun p _ _ _ => p)
    (fun T width _ _ =>
       mkStorage (repeat (zeros width 1) (Z.to_nat (T + 1)))
                 (repeat (zeros width 1) (Z.to_nat (T + 1)))
                 (repeat (zeros width 1) (Z.to_nat (T + 1))) tt)
    (fun st _ _ _ _ _ _ _ => st)
    (fun st _ => st)
    (fun st => st).

(** PPO with both schedules, 6 rollouts over 2 workers, 5 cycles. *)
Definition demo_args : Args :=
  mkArgs "ppo" false 6 2 20 2 true true (1 # 1000) (1 # 5)
         2 "models" 1 (Some 3) false 1 7 None.

(** The configuration of the scheduler example: 90 rollouts, 30 workers. *)
Definition args_90_30 : Args :=
  mkArgs "ppo" false 90 30 360 2 false false (1 # 1000) (1 # 5)
         100 "models" 10 None false 100 1 None.

(** Sixteen workers and [num_rollouts] left at 0. *)
Definition args_16 : Args :=
  mkArgs "a2c" false 0 16 1600 5 false false (1 # 1000) (1 # 5)
         100 "models" 10 None false 100 1 None.

Definition demo_setup : State demo_world * list Event :=
  Eval vm_compute in
    match setup demo_world demo_args with
    | Ok x => x
    | _ => (mkState demo_world (0, 0) tt 0%Q 0%Q (mkStorage [] [] [] tt)
                    (deque_new 0), [])
    end.

Definition demo_cycle (fuel : nat) (j : Z) (s : State demo_world)
  : State demo_world * list Event :=
  match cycle demo_world demo_args 5 fuel j s with
  | Ok x => x
  | _ => (s, [])
  end.

Definition demo_after0 : State demo_world * list Event :=
  Eval vm_compute in demo_cycle 20 0 (fst demo_setup).
Definition demo_after1 : State demo_world * list Event :=
  Eval vm_compute in demo_cycle 20 1 (fst demo_after0).
Definition demo_after2 : State demo_world * list Event :=
  Eval vm_compute in demo_cycle 20 2 (fst demo_after1).
Definition demo_after3 : State demo_world * list Event :=
  Eval vm_compute in demo_cycle 20 3 (fst demo_after2).
Definition demo_after4 : State demo_world * list Event :=
  Eval vm_compute in demo_cycle 20 4 (fst demo_after3).

(** The effective arguments for [args_16] and the state [main] starts
    its loop in. *)
Definition args_16_effective : Args := set_num_rollouts args_16 32.

Definition setup_16 : State demo_world * list Event :=
  Eval vm_compute in
    match setup demo_world args_16_effective with
    | Ok x => x
    | _ => demo_setup
    end.

(** The scheduler example run to the end: which cycles updated. *)
Definition is_update (e : Event) : bool :=
  match e with
  | EvUpdate _ _ => true
  | _ => false
  end.

Definition updates_by_cycle (log : list (Z * list Event)) : list (Z * bool) :=
  map (fun entry => (fst entry, existsb is_update (snd entry))) log.

Definition is_save (e : Event) : bool :=
  match e with
  | EvSave _ => true
  | _ => false
  end.

(** The steps each phase can take. *)
Definition decay_event (e : Event) : Prop :=
  match e with
  | EvSchedule _ _ _ | EvClip _ => True
  | _ => False
  end.

Definition collect_event (e : Event) : Prop :=
  match e with
  | EvAct _ _ _ false | EvStep _ | EvInsert => True
  | _ => False
  end.

Definition eval_event (e : Event) : Prop :=
  match e with
  | EvMakeVecEnvs _ _ true true | EvAct _ _ _ true | EvStep _
  | EvClose | EvEvalPrint _ => True
  | _ => False
  end.

(** What a cycle that passed the gate went through. *)
Inductive Passed (W : World) (a : Args) (n : Z) (fuel : nat) (j : Z)
  (s2 s' : State W) (rest : list Event) : Prop :=
| passed (ev_save ev_log ev_eval ev_vis : list Event) :
    update_phase W s2
    = Ok (s', [EvGetValue; EvComputeReturns;
               EvUpdate (cur_lr s2) (cur_clip s2); EvAfterUpdate]) ->
    save_phase a n j = Ok ev_save ->
    log_phase W a j s' = Ok ev_log ->
    eval_phase W a fuel j s' = Ok ev_eval ->
    vis_phase a j = Ok ev_vis ->
    rest = [EvGetValue; EvComputeReturns;
            EvUpdate (cur_lr s2) (cur_clip s2); EvAfterUpdate]
           ++ ev_save ++ ev_log ++ ev_eval ++ ev_vis ->
    Passed W a n fuel j s2 s' rest.

(** Columns [lo, hi) of a batch. *)
Definition columns {A : Type} (lo hi : nat) (b : list A) : list A :=
  firstn (hi - lo) (skipn lo b).

(** The evaluation of cycle 0 of the demo run. *)
Definition demo_eval : EvalState demo_world * list Event :=
  Eval vm_compute in
    match eval_loop demo_world demo_args 20 tt
                    (eval_start demo_world demo_args (fst demo_after0)) with
    | Ok x => x
    | _ => (eval_start demo_world demo_args (fst demo_after0), [])
    end.

(** How many episode returns an evaluation has gathered. *)
Definition gathered {W : World} (e : EvalState W) : Z :=
  Z.of_nat (length (eval_episode_rewards e)).

(** Two states of [main] with the same environments, policy, storage and
    log; they may differ in the scheduled learning rate and clip. *)
Definition same_data {W : World} (s r : State W) : Prop :=
  envs s = envs r /\ actor_critic s = actor_critic r
  /\ rollouts s = rollouts r /\ episode_rewards s = episode_rewards r.

(** The reset observations that [setup] receives. *)
Definition reset_obs (W : World) (a : Args) : Batch :=
  snd (env_reset W (snd (setup_policy W a))).

(** ** Further notions and example inputs *)

(** The number of cycles between two updates, [num_rollouts //
    num_processes]. *)
Definition period (a : Args) : Z := num_rollouts a / num_processes a.

(** The last [m] elements of a list (all of it when it is shorter). *)
Definition keep_last {A : Type} (m : Z) (l : list A) : list A :=
  skipn (length l - Z.to_nat m) l.

Definition is_insert (e : Event) : bool :=
  match e with
  | EvInsert => true
  | _ => false
  end.

Definition count_events (f : Event -> bool) (ev : list Event) : nat :=
  length (filter f ev).

(** All the steps of a run, cycle after cycle. *)
Definition steps_of_run (log : list (Z * list Event)) : list Event :=
  flat_map snd log.

(** The [infos] that [envs.step(action)] hands back. *)
Definition step_infos (W : World) (e : Env W) (action : Batch) : list Info :=
  snd (snd (env_step W e action)).


(** The arguments pass the two algorithm asserts of lines 23-26. *)
Definition algo_accepted (a : Args) : Prop :=
  In (algo a) ["a2c"; "ppo"; "acktr"]%string
  /\ (recurrent_policy a = true -> In (algo a) ["a2c"; "ppo"]%string).

(** No workers and [num_rollouts] left at 0. *)
Definition args_no_workers : Args :=
  mkArgs "a2c" false 0 0 1600 5 false false (1 # 1000) (1 # 5)
         100 "models" 10 None false 100 1 None.

(** No workers and a negative [num_rollouts]. *)
Definition args_zero_divisor : Args :=
  mkArgs "a2c" false (-1) 0 1600 5 false false (1 # 1000) (1 # 5)
         100 "models" 10 None false 100 1 None.


(** The demo arguments with the storage as wide as the workers. *)
Definition args_full_width : Args :=
  mkArgs "ppo" false 2 2 20 2 true true (1 # 1000) (1 # 5)
         2 "models" 1 (Some 3) false 1 7 None.

(** The demo arguments with [save_interval] 0. *)
Definition args_zero_save : Args :=
  mkArgs "ppo" false 6 2 20 2 true true (1 # 1000) (1 # 5)
         0 "models" 1 (Some 3) false 1 7 None.

(** The demo arguments with plotting on. *)
Definition args_vis : Args :=
  mkArgs "ppo" false 6 2 20 2 true true (1 # 1000) (1 # 5)
         2 "models" 1 (Some 3) true 3 7 None.


(** The whole demo run. *)
Definition demo_run
  : State demo_world * list Event * list (Z * list Event) :=
  Eval vm_compute in
    match main demo_world demo_args 5 20 with
    | Ok x => x
    | _ => (fst demo_setup, [], [])
    end.

(** Cycle 1 under the variants of the demo arguments. *)
Definition full_width_cycle1 : State demo_world * list Event :=
  Eval vm_compute in
    match cycle demo_world args_full_width 5 20 1 (fst demo_setup) with
    | Ok x => x
    | _ => (fst demo_setup, [])
    end.

Definition zero_save_cycle1 : State demo_world * list Event :=
  Eval vm_compute in
    match cycle demo_world args_zero_save 5 20 1 (fst demo_setup) with
    | Ok x => x
    | _ => (fst demo_setup, [])
    end.

Definition vis_cycle3 : State demo_world * list Event :=
  Eval vm_compute in
    match cycle demo_world args_vis 5 20 3 (fst demo_after2) with
    | Ok x => x
    | _ => (fst demo_setup, [])
    end.

(** * Properties *)

(** ** Python helpers *)

Lemma py_mod_ok (x d : Z) : d <> 0 -> py_mod x d = Ok (x mod d).
Proof.
  intros Hd. unfold py_mod.
  destruct (Z.eqb_spec d 0) as [E | _]; [contradiction | reflexivity].
Qed.

Lemma py_floordiv_ok (x d : Z) : d <> 0 -> py_floordiv x d = Ok (x / d).
Proof.
  intros Hd. unfold py_floordiv.
  destruct (Z.eqb_spec d 0) as [E | _]; [contradiction | reflexivity].
Qed.

Lemma py_mod_inv (x d m : Z) : py_mod x d = Ok m -> d <> 0 /\ m = x mod d.
Proof.
  unfold py_mod. destruct (Z.eqb_spec d 0); intros H; inversion H; auto.
Qed.

Lemma py_floordiv_inv (x d q : Z) :
  py_floordiv x d = Ok q -> d <> 0 /\ q = x / d.
Proof.
  unfold py_floordiv. destruct (Z.eqb_spec d 0); intros H; inversion H; auto.
Qed.

Lemma bind_ok {A B : Type} (r : result A) (k : A -> result B) (b : B) :
  bind r k = Ok b -> exists x, r = Ok x /\ k x = Ok b.
Proof.
  destruct r as [x | e | ]; simpl; intros H; try discriminate.
  exists x. split; [reflexivity | exact H].
Qed.

Lemma str_in_In (x : string) (l : list string) :
  str_in x l = true <-> In x l.
Proof.
  unfold str_in. rewrite existsb_exists. split.
  - intros [y [Hy E]]. apply String.eqb_eq in E. subst y. exact Hy.
  - intros H. exists x. split; [exact H | apply String.eqb_refl].
Qed.


Lemma py_range_length (n : Z) : 0 <= n -> Z.of_nat (length (py_range n)) = n.
Proof.
  intros Hn. unfold py_range. rewrite length_map, length_seq. lia.
Qed.

(** ** The normalisation loop *)

Lemma raise_rollouts_run (procs : Z) (Hp : 1 <= procs) :
  forall (fuel : nat) (n : Z),
    (Z.to_nat (30 - n) < fuel)%nat ->
    exists r, raise_rollouts fuel procs n = Ok r
              /\ n <= r /\ 30 <= r /\ (procs | r - n)
              /\ (n < 30 -> r - procs < 30)
              /\ (30 <= n -> r = n).
Proof.
  induction fuel as [| fuel IH]; intros n Hf; [lia |].
  simpl. destruct (Z.ltb_spec n 30) as [Hlt | Hge].
  - destruct (IH (n + procs)) as [r [Hr [H1 [H2 [H3 [H4 H5]]]]]]; [lia |].
    exists r. split; [exact Hr |].
    split; [lia |]. split; [lia |]. split; [| split; [| lia]].
    + destruct H3 as [c Hc]. exists (c + 1). lia.
    + intros _. destruct (Z.lt_ge_cases (n + procs) 30) as [Hs | Hs].
      * specialize (H4 Hs). lia.
      * rewrite (H5 Hs). lia.
  - exists n. split; [reflexivity |].
    split; [lia |]. split; [lia |]. split; [| split; [lia | reflexivity]].
    exists 0. lia.
Qed.

Lemma least_multiple_unique (procs r1 r2 : Z) :
  least_multiple_from_30 procs r1 -> least_multiple_from_30 procs r2 ->
  r1 = r2.
Proof.
  intros [D1 [P1 [G1 L1]]] [D2 [P2 [G2 L2]]].
  specialize (L1 r2 D2 P2 G2). specialize (L2 r1 D1 P1 G1). lia.
Qed.

Lemma raise_rollouts_least (procs : Z) (fuel : nat) :
  1 <= procs -> (30 < fuel)%nat ->
  exists r, raise_rollouts fuel procs 0 = Ok r
            /\ least_multiple_from_30 procs r.
Proof.
  intros Hp Hf.
  destruct (raise_rollouts_run procs Hp fuel 0) as [r [Hr [H1 [H2 [H3 [H4 _]]]]]].
  { simpl. lia. }
  exists r. split; [exact Hr |].
  rewrite Z.sub_0_r in H3. specialize (H4 ltac:(lia)).
  repeat split; try lia; try exact H3.
  intros m [c Hc] Hm Hm30. destruct H3 as [d Hd].
  destruct (Z.le_gt_cases r m) as [Hle | Hgt]; [exact Hle | exfalso].
  assert (c < d) by nia. nia.
Qed.

Lemma normalize_keeps_fields (fuel : nat) (a a1 : Args) :
  normalize_num_rollouts fuel a = Ok a1 ->
  algo a1 = algo a /\ recurrent_policy a1 = recurrent_policy a
  /\ num_processes a1 = num_processes a.
Proof.
  unfold normalize_num_rollouts.
  destruct (num_rollouts a =? 0).
  - intros H. apply bind_ok in H. destruct H as [n [_ H]].
    inversion H. subst a1. simpl. auto.
  - intros H. inversion H. auto.
Qed.

Lemma normalize_from_zero (fuel : nat) (a : Args) :
  num_rollouts a = 0 -> 1 <= num_processes a -> (30 < fuel)%nat ->
  exists a1,
    normalize_num_rollouts fuel a = Ok a1
    /\ least_multiple_from_30 (num_processes a) (num_rollouts a1).
Proof.
  intros Hz Hp Hf.
  destruct (raise_rollouts_least (num_processes a) fuel Hp Hf) as [r [Hr Hl]].
  exists (set_num_rollouts a r). split; [| exact Hl].
  unfold normalize_num_rollouts. rewrite Hz. simpl. rewrite Hr. reflexivity.
Qed.

(** C2: with [num_rollouts == 0] and at least one worker, the
    normalisation of lines 28-31 returns, and the effective [num_rollouts]
    it leaves (the one every successful start-up carries on with) is the
    smallest positive multiple of [num_processes] that is at least 30. *)
Theorem C2_num_rollouts_normalization (fuel : nat) (a : Args) :
  num_rollouts a = 0 -> 1 <= num_processes a -> (30 < fuel)%nat ->
  exists a1,
    normalize_num_rollouts fuel a = Ok a1
    /\ least_multiple_from_30 (num_processes a) (num_rollouts a1)
    /\ forall a2 n, startup fuel a = Ok (a2, n) ->
                    num_rollouts a2 = num_rollouts a1.
Proof.
  intros Hz Hp Hf.
  destruct (raise_rollouts_least (num_processes a) fuel Hp Hf) as [r [Hr Hl]].
  exists (set_num_rollouts a r).
  assert (Hn : normalize_num_rollouts fuel a = Ok (set_num_rollouts a r)).
  { unfold normalize_num_rollouts. rewrite Hz. simpl. rewrite Hr. reflexivity. }
  split; [exact Hn |]. split; [exact Hl |].
  intros a2 n Hs. unfold startup in Hs.
  apply bind_ok in Hs. destruct Hs as [a3 [Hv Hs]].
  apply bind_ok in Hs. destruct Hs as [n' [_ Hs]]. inversion Hs. subst a3 n'.
  unfold validate_args in Hv.
  apply bind_ok in Hv. destruct Hv as [_ [_ Hv]].
  apply bind_ok in Hv. destruct Hv as [_ [_ Hv]].
  rewrite Hn in Hv. simpl in Hv.
  apply bind_ok in Hv. destruct Hv as [_ [_ Hv]].
  inversion Hv. reflexivity.
Qed.

Lemma C2_num_rollouts_normalization_witness :
  exists a1,
    normalize_num_rollouts 31 args_16 = Ok a1
    /\ least_multiple_from_30 16 (num_rollouts a1)
    /\ forall a2 n, startup 31 args_16 = Ok (a2, n) ->
                    num_rollouts a2 = num_rollouts a1.
Proof.
  apply (C2_num_rollouts_normalization 31 args_16);
    [reflexivity | simpl; lia | lia].
Defined.

(** ** Validation *)

Lemma divisible_check (n d : Z) :
  d <> 0 -> ((n mod d =? 0) = true <-> (d | n)).
Proof.
  intros Hd. rewrite Z.eqb_eq. apply Z.mod_divide. exact Hd.
Qed.



(** Once the two algorithm asserts pass, validation is the normalisation
    followed by the divisibility assert. *)
Lemma validate_args_past_algo (fuel : nat) (a : Args) :
  str_in (algo a) ["a2c"; "ppo"; "acktr"]%string = true ->
  (recurrent_policy a = true ->
   str_in (algo a) ["a2c"; "ppo"]%string = true) ->
  validate_args fuel a =
  (a1 <- normalize_num_rollouts fuel a ;;
   _ <- (if num_rollouts a1 >? 0
         then m <- py_mod (num_rollouts a1) (num_processes a1) ;;
              py_assert (m =? 0) msg_divisible
         else Ok tt) ;;
   Ok a1).
Proof.
  intros H1 H2. unfold validate_args. rewrite H1.
  destruct (recurrent_policy a); [rewrite (H2 eq_refl) |]; reflexivity.
Qed.




(** ** The update count and the loop *)

Lemma run_cycles_indices (W : World) (a : Args) (n : Z) (fuel : nat) :
  forall (js : list Z) (s s' : State W) (log : list (Z * list Event)),
    run_cycles W a n fuel js s = Ok (s', log) -> map fst log = js.
Proof.
  induction js as [| j js IH]; intros s s' log H; simpl in H.
  - inversion H. reflexivity.
  - apply bind_ok in H. destruct H as [[s1 ev] [_ H]]. simpl in H.
    apply bind_ok in H. destruct H as [[s2 log'] [Hrest H]]. simpl in H.
    inversion H. subst s' log. simpl. f_equal. exact (IH _ _ _ Hrest).
Qed.




(** ** The episode-return log *)

Lemma deque_append_maxlen (d : Deque) (x : Q) :
  maxlen (deque_append d x) = maxlen d.
Proof. reflexivity. Qed.

Lemma deque_append_size (d : Deque) (x : Q) :
  0 <= maxlen d -> deque_size (deque_append d x) <= maxlen d.
Proof.
  intros Hm. unfold deque_size, deque_append. simpl.
  rewrite length_skipn, length_app. simpl. lia.
Qed.

Lemma deque_appends_bounded (xs : list Q) :
  forall d : Deque,
    0 <= maxlen d -> deque_size d <= maxlen d ->
    maxlen (fold_left deque_append xs d) = maxlen d
    /\ deque_size (fold_left deque_append xs d) <= maxlen d.
Proof.
  induction xs as [| x xs IH]; intros d Hm Hs; simpl.
  - split; [reflexivity | exact Hs].
  - destruct (IH (deque_append d x)) as [H1 H2].
    + rewrite deque_append_maxlen. exact Hm.
    + rewrite deque_append_maxlen. apply deque_append_size. exact Hm.
    + rewrite deque_append_maxlen in H1, H2. split; assumption.
Qed.

Lemma setup_episode_rewards (W : World) (a : Args) (s : State W)
  (ev : list Event) :
  setup W a = Ok (s, ev) -> episode_rewards s = deque_new (deque_len a).
Proof.
  unfold setup. intros H.
  destruct (setup_policy W a) as [policy envs1].
  destruct (env_reset W envs1) as [envs2 ob].
  apply bind_ok in H. destruct H as [first [_ H]].
  apply bind_ok in H. destruct H as [obs' [_ H]].
  inversion H. reflexivity.
Qed.

Lemma startup_args (fuel : nat) (a a1 : Args) (n : Z) :
  startup fuel a = Ok (a1, n) -> validate_args fuel a = Ok a1.
Proof.
  unfold startup. intros H.
  apply bind_ok in H. destruct H as [a2 [Hv H]].
  apply bind_ok in H. destruct H as [n' [_ H]].
  inversion H. subst. exact Hv.
Qed.

Lemma validate_args_normalized (fuel : nat) (a a1 : Args) :
  validate_args fuel a = Ok a1 -> normalize_num_rollouts fuel a = Ok a1.
Proof.
  unfold validate_args. intros H.
  apply bind_ok in H. destruct H as [_ [_ H]].
  apply bind_ok in H. destruct H as [_ [_ H]].
  apply bind_ok in H. destruct H as [a2 [Hn H]].
  apply bind_ok in H. destruct H as [_ [_ H]].
  inversion H. subst. exact Hn.
Qed.

(** C5, as the code has it: the log of finished-episode returns never
    holds more than its capacity, and the capacity is the effective
    [num_rollouts] whenever that is positive: the configured value when it
    was set positive, and the smallest multiple of [num_processes] that is
    at least 30 when it was configured as 0 (start-up has raised it by
    then); [max(num_processes, 10)] is the capacity only for a negative
    [num_rollouts]. *)
Theorem C5_episode_log_capacity (W : World) (fuel : nat) (a a1 : Args)
  (n : Z) (s : State W) (ev : list Event) :
  1 <= num_processes a -> (30 < fuel)%nat ->
  startup fuel a = Ok (a1, n) -> setup W a1 = Ok (s, ev) ->
  (0 < num_rollouts a -> maxlen (episode_rewards s) = num_rollouts a)
  /\ (num_rollouts a = 0 ->
      least_multiple_from_30 (num_processes a) (maxlen (episode_rewards s)))
  /\ (num_rollouts a < 0 ->
      maxlen (episode_rewards s) = Z.max (num_processes a) 10)
  /\ forall returns,
       deque_size (fold_left deque_append returns (episode_rewards s))
       <= maxlen (episode_rewards s).
Proof.
  intros Hp Hf Hstart Hsetup.
  apply startup_args, validate_args_normalized in Hstart.
  rewrite (setup_episode_rewards _ _ _ _ Hsetup). simpl.
  assert (Hcap : 0 <= deque_len a1).
  { unfold deque_len. destruct (Z.gtb_spec (num_rollouts a1) 0); [lia |].
    destruct (Z.gtb_spec (num_processes a1) 10); lia. }
  split; [| split; [| split]].
  - intros Hpos. unfold normalize_num_rollouts in Hstart.
    destruct (Z.eqb_spec (num_rollouts a) 0); [lia |].
    inversion Hstart. subst a1. unfold deque_len.
    destruct (Z.gtb_spec (num_rollouts a) 0); [reflexivity | lia].
  - intros Hz.
    destruct (normalize_from_zero fuel a Hz Hp Hf) as [a2 [Hn Hl]].
    rewrite Hn in Hstart. inversion Hstart. subst a2.
    unfold deque_len. destruct Hl as [Hd [Hpos Hrest]].
    destruct (Z.gtb_spec (num_rollouts a1) 0); [| lia].
    split; [exact Hd | split; [exact Hpos | exact Hrest]].
  - intros Hneg. unfold normalize_num_rollouts in Hstart.
    destruct (Z.eqb_spec (num_rollouts a) 0); [lia |].
    inversion Hstart. subst a1. unfold deque_len.
    destruct (Z.gtb_spec (num_rollouts a) 0); [lia |].
    destruct (Z.gtb_spec (num_processes a) 10); lia.
  - intros returns.
    apply (deque_appends_bounded returns (deque_new (deque_len a1)));
      simpl; [exact Hcap | unfold deque_size; simpl; exact Hcap].
Qed.

Lemma C5_episode_log_capacity_witness :
  (0 < num_rollouts args_16 ->
   maxlen (episode_rewards (fst setup_16)) = num_rollouts args_16)
  /\ (num_rollouts args_16 = 0 ->
      least_multiple_from_30 (num_processes args_16)
                             (maxlen (episode_rewards (fst setup_16))))
  /\ (num_rollouts args_16 < 0 ->
      maxlen (episode_rewards (fst setup_16))
      = Z.max (num_processes args_16) 10)
  /\ forall returns,
       deque_size (fold_left deque_append returns
                             (episode_rewards (fst setup_16)))
       <= maxlen (episode_rewards (fst setup_16)).
Proof.
  apply (C5_episode_log_capacity demo_world 31 args_16 args_16_effective 20
           (fst setup_16) (snd setup_16));
    [simpl; lia | lia | vm_compute; reflexivity | vm_compute; reflexivity].
Defined.

(** With 16 workers and [num_rollouts] left at 0, start-up raises
    [num_rollouts] to 32 and the log is built with capacity 32, where
    [max(num_processes, 10)] is 16. *)
Lemma C5_capacity_counterexample :
  num_rollouts args_16 = 0
  /\ startup 31 args_16 = Ok (args_16_effective, 20)
  /\ setup demo_world args_16_effective = Ok setup_16
  /\ maxlen (episode_rewards (fst setup_16)) = 32
  /\ Z.max (num_processes args_16) 10 = 16
  /\ maxlen (episode_rewards (fst setup_16))
     <> Z.max (num_processes args_16) 10.
Proof.
  repeat split; try (vm_compute; reflexivity).
  vm_compute. discriminate.
Qed.

(** ** The phases of one cycle *)

Section CycleFacts.

Variable W : World.
Variable a : Args.
Variable n : Z.

Lemma decay_phase_events (j : Z) (s : State W) :
  Forall decay_event (snd (decay_phase W a n j s)).
Proof.
  unfold decay_phase.
  destruct (use_linear_lr_decay a);
    destruct (String.eqb (algo a) "ppo" && use_linear_clip_decay a);
    simpl; repeat constructor.
Qed.

Lemma decay_phase_rest (j : Z) (s : State W) :
  let s1 := fst (decay_phase W a n j s) in
  envs s1 = envs s /\ actor_critic s1 = actor_critic s
  /\ rollouts s1 = rollouts s /\ episode_rewards s1 = episode_rewards s.
Proof.
  unfold decay_phase.
  destruct (use_linear_lr_decay a);
    destruct (String.eqb (algo a) "ppo" && use_linear_clip_decay a);
    simpl; auto.
Qed.

Lemma collect_step_inv (step : Z) (s s' : State W) (ev : list Event) :
  collect_step W a step s = Ok (s', ev) ->
  exists o h m,
    slot (obs (rollouts s)) step = Ok o
    /\ slot (recurrent_hidden_states (rollouts s)) step = Ok h
    /\ slot (masks (rollouts s)) step = Ok m
    /\ (exists action,
          ev = [EvAct (take (num_processes a) o) (take (num_processes a) h)
                      (take (num_processes a) m) false;
                EvStep action; EvInsert])
    /\ cur_lr s' = cur_lr s /\ cur_clip s' = cur_clip s
    /\ actor_critic s' = actor_critic s.
Proof.
  unfold collect_step. intros H.
  apply bind_ok in H. destruct H as [o [Ho H]].
  apply bind_ok in H. destruct H as [h [Hh H]].
  apply bind_ok in H. destruct H as [m [Hm H]].
  exists o, h, m. repeat (split; [assumption |]).
  destruct (act W _ _ _ _ _) as [[[value action] logp] hidden].
  destruct (env_step W _ _) as [envs' [[[ob reward] done] infos]].
  inversion H. subst. simpl. split; [eexists; reflexivity | auto].
Qed.

Lemma collect_steps_facts (steps : list Z) :
  forall (s s' : State W) (ev : list Event),
    collect_steps W a steps s = Ok (s', ev) ->
    Forall collect_event ev
    /\ cur_lr s' = cur_lr s /\ cur_clip s' = cur_clip s
    /\ actor_critic s' = actor_critic s.
Proof.
  induction steps as [| step steps IH]; intros s s' ev H; simpl in H.
  - inversion H. subst. auto.
  - apply bind_ok in H. destruct H as [[s1 ev1] [H1 H]]. simpl in H.
    apply bind_ok in H. destruct H as [[s2 ev2] [H2 H]]. simpl in H.
    inversion H. subst s' ev. clear H.
    apply collect_step_inv in H1.
    destruct H1 as [o [h [m [_ [_ [_ [[action E] [L1 [C1 P1]]]]]]]]].
    destruct (IH _ _ _ H2) as [F [L2 [C2 P2]]].
    split; [| repeat split; congruence].
    subst ev1. apply Forall_app. split; [| exact F].
    repeat constructor.
Qed.

Lemma update_phase_inv (s s' : State W) (ev : list Event) :
  update_phase W s = Ok (s', ev) ->
  ev = [EvGetValue; EvComputeReturns; EvUpdate (cur_lr s) (cur_clip s);
        EvAfterUpdate]
  /\ cur_lr s' = cur_lr s /\ cur_clip s' = cur_clip s
  /\ episode_rewards s' = episode_rewards s /\ envs s' = envs s.
Proof.
  unfold update_phase. intros H.
  apply bind_ok in H. destruct H as [o [_ H]].
  apply bind_ok in H. destruct H as [h [_ H]].
  apply bind_ok in H. destruct H as [m [_ H]].
  inversion H. subst. simpl. auto.
Qed.

Lemma save_phase_inv (j : Z) (ev : list Event) :
  save_phase a n j = Ok ev ->
  save_interval a <> 0
  /\ ((ev = [EvSave j] /\ save_dir a <> EmptyString
       /\ ((save_interval a | j) \/ j = n - 1))
      \/ (ev = [] /\ ~ (save_dir a <> EmptyString
                       /\ ((save_interval a | j) \/ j = n - 1)))).
Proof.
  unfold save_phase. intros H.
  apply bind_ok in H. destruct H as [m [Hm H]].
  apply py_mod_inv in Hm. destruct Hm as [Hsi Hm]. subst m.
  split; [exact Hsi |].
  assert (Hdiv : (j mod save_interval a =? 0) = true
                 <-> (save_interval a | j))
    by (apply divisible_check; exact Hsi).
  destruct (String.eqb_spec (save_dir a) EmptyString) as [Hd | Hd]; simpl in H.
  - rewrite andb_false_r in H. inversion H. right.
    split; [reflexivity |]. intros [C _]. contradiction.
  - rewrite andb_true_r in H.
    destruct (j mod save_interval a =? 0) eqn:Em; simpl in H.
    + inversion H. left. split; [reflexivity |].
      split; [exact Hd |]. left. apply Hdiv. reflexivity.
    + destruct (Z.eqb_spec j (n - 1)) as [Hj | Hj]; inversion H.
      * left. auto.
      * right. split; [reflexivity |].
        intros [_ [C | C]]; [| contradiction].
        apply Hdiv in C. discriminate.
Qed.

Lemma log_phase_inv (j : Z) (s : State W) (ev : list Event) :
  log_phase W a j s = Ok ev -> ev = [] \/ exists t, ev = [EvPrint j t].
Proof.
  unfold log_phase. intros H.
  apply bind_ok in H. destruct H as [m [_ H]].
  destruct ((m =? 0) && (deque_size (episode_rewards s) >? 1));
    inversion H; [right; eexists; reflexivity | left; reflexivity].
Qed.

Lemma vis_phase_inv (j : Z) (ev : list Event) :
  vis_phase a j = Ok ev -> ev = [] \/ ev = [EvVisdom j].
Proof.
  unfold vis_phase. intros H. destruct (vis a).
  - apply bind_ok in H. destruct H as [m [_ H]].
    destruct (m =? 0); inversion H; auto.
  - inversion H. auto.
Qed.

Lemma eval_body_events (p : Policy W) (e : EvalState W) :
  exists action,
    snd (eval_body W a p e)
    = [EvAct (eval_obs e) (eval_recurrent_hidden_states e) (eval_masks e)
             true;
       EvStep action]
  /\ eval_reward_list_robot1 (fst (eval_body W a p e))
     = eval_reward_list_robot1 e
  /\ eval_reward_list_robot2 (fst (eval_body W a p e))
     = eval_reward_list_robot2 e.
Proof.
  unfold eval_body.
  destruct (act W _ _ _ _ _) as [[[value action] logp] hidden].
  destruct (env_step W _ _) as [envs' [[[ob reward] done] infos]].
  exists action. simpl. auto.
Qed.

Lemma eval_loop_facts (fuel : nat) (p : Policy W) :
  forall (e e' : EvalState W) (ev : list Event),
    eval_loop W a fuel p e = Ok (e', ev) ->
    Forall eval_event ev
    /\ ~ In EvResetEvalRewards ev
    /\ eval_reward_list_robot1 e' = eval_reward_list_robot1 e
    /\ eval_reward_list_robot2 e' = eval_reward_list_robot2 e
    /\ 10 <= Z.of_nat (length (eval_episode_rewards e')).
Proof.
  induction fuel as [| fuel IH]; intros e e' ev H; simpl in H;
    [discriminate |].
  destruct (Z.ltb_spec (Z.of_nat (length (eval_episode_rewards e))) 10)
    as [Hlt | Hge].
  - destruct (eval_body_events p e) as [action [Eev [R1 R2]]].
    destruct (eval_body W a p e) as [e1 ev1]. simpl in Eev, R1, R2.
    apply bind_ok in H. destruct H as [[e2 ev2] [Hloop H]]. simpl in H.
    inversion H. subst e' ev. clear H.
    destruct (IH _ _ _ Hloop) as [F [Hno [Q1 [Q2 Hlen]]]].
    subst ev1. repeat split; try congruence; try exact Hlen.
    + apply Forall_app. split; [repeat constructor | exact F].
    + intros Hin. apply in_app_or in Hin. destruct Hin as [Hin | Hin].
      * simpl in Hin. destruct Hin as [C | [C | C]];
          [discriminate | discriminate | contradiction].
      * exact (Hno Hin).
  - inversion H. subst. repeat split; auto.
Qed.

End CycleFacts.

Section CycleShape.

Variable W : World.
Variable a : Args.
Variable n : Z.

Lemma eval_due_inv (j : Z) (s : State W) :
  eval_due W a j s = Ok true ->
  exists interval,
    eval_interval a = Some interval /\ interval <> 0
    /\ (interval | j) /\ 2 <= deque_size (episode_rewards s).
Proof.
  unfold eval_due. intros H.
  destruct (eval_interval a) as [interval |]; [| discriminate].
  destruct (Z.gtb_spec (deque_size (episode_rewards s)) 1) as [Hsz | Hsz];
    [| discriminate].
  apply bind_ok in H. destruct H as [m [Hm H]].
  apply py_mod_inv in Hm. destruct Hm as [Hi Hm]. subst m.
  inversion H as [Hz].
  exists interval. split; [reflexivity |]. split; [exact Hi |].
  split; [apply (divisible_check _ _ Hi); exact Hz | lia].
Qed.

Lemma eval_phase_inv (fuel : nat) (j : Z) (s : State W) (ev : list Event) :
  eval_phase W a fuel j s = Ok ev ->
  (eval_due W a j s = Ok false /\ ev = [])
  \/ (eval_due W a j s = Ok true
      /\ exists e evl,
           eval_loop W a fuel (actor_critic s) (eval_start W a s)
           = Ok (e, evl)
           /\ ev = [EvMakeVecEnvs (seed a + num_processes a)
                                  (num_processes a) true true]
                   ++ evl
                   ++ [EvClose;
                       EvEvalPrint (length (eval_episode_rewards e))]).
Proof.
  unfold eval_phase. intros H.
  apply bind_ok in H. destruct H as [due [Hdue H]].
  destruct due.
  - right. split; [exact Hdue |].
    apply bind_ok in H. destruct H as [[e ev'] [Hrun H]]. simpl in H.
    inversion H. subst ev'. clear H.
    unfold run_evaluation in Hrun.
    apply bind_ok in Hrun. destruct Hrun as [[e1 evl] [Hloop Hrun]].
    simpl in Hrun. inversion Hrun as [[He Hev]].
    exists e1, evl. split; [exact Hloop |].
    rewrite He. reflexivity.
  - left. inversion H. auto.
Qed.

Lemma eval_phase_events (fuel : nat) (j : Z) (s : State W)
  (ev : list Event) :
  eval_phase W a fuel j s = Ok ev -> Forall eval_event ev.
Proof.
  intros H. apply eval_phase_inv in H.
  destruct H as [[_ E] | [_ [e [evl [Hloop E]]]]]; subst ev.
  - constructor.
  - apply eval_loop_facts in Hloop. destruct Hloop as [F _].
    apply Forall_app. split; [repeat constructor |].
    apply Forall_app. split; [exact F | repeat constructor].
Qed.

Lemma after_gate_inv (fuel : nat) (j : Z) (s2 s' : State W)
  (rest : list Event) :
  after_gate W a n fuel j s2 = Ok (s', rest) -> Passed W a n fuel j s2 s' rest.
Proof.
  unfold after_gate. intros H.
  apply bind_ok in H. destruct H as [[s3 evu] [Hu H]]. simpl in H.
  apply bind_ok in H. destruct H as [evs [Hs H]].
  apply bind_ok in H. destruct H as [evl [Hl H]].
  apply bind_ok in H. destruct H as [eve [He H]].
  apply bind_ok in H. destruct H as [evv [Hv H]].
  inversion H. subst s3 rest. clear H.
  destruct (update_phase_inv W _ _ _ Hu) as [E _]. subst evu.
  exact (passed W a n fuel j s2 s' _ evs evl eve evv Hu Hs Hl He Hv eq_refl).
Qed.

(** The two ways a cycle ends. *)
Lemma cycle_inv (fuel : nat) (j : Z) (s s' : State W) (ev : list Event) :
  cycle W a n fuel j s = Ok (s', ev) ->
  exists s2 evc,
    collection_phase W a (fst (decay_phase W a n j s)) = Ok (s2, evc)
    /\ Forall collect_event evc
    /\ cur_lr s2 = cur_lr (fst (decay_phase W a n j s))
    /\ cur_clip s2 = cur_clip (fst (decay_phase W a n j s))
    /\ ((skip_update a j = Ok true /\ s' = s2
         /\ ev = snd (decay_phase W a n j s) ++ evc ++ [EvContinue])
        \/ (skip_update a j = Ok false
            /\ exists rest,
                 Passed W a n fuel j s2 s' rest
                 /\ ev = snd (decay_phase W a n j s) ++ evc ++ rest)).
Proof.
  unfold cycle. intros H.
  destruct (decay_phase W a n j s) as [s1 evd]. simpl.
  apply bind_ok in H. destruct H as [[s2 evc] [Hc H]]. simpl in H.
  apply bind_ok in H. destruct H as [skip [Hskip H]].
  exists s2, evc. split; [exact Hc |].
  destruct (collect_steps_facts W a _ _ _ _ Hc) as [F [L [C _]]].
  split; [exact F |]. split; [exact L |]. split; [exact C |].
  destruct skip.
  - left. inversion H. auto.
  - right. split; [exact Hskip |].
    apply bind_ok in H. destruct H as [[s3 rest] [Hg H]]. simpl in H.
    inversion H. subst s3 ev. exists rest.
    split; [apply after_gate_inv; exact Hg | reflexivity].
Qed.

Lemma In_class (P : Event -> Prop) (l : list Event) (e : Event) :
  Forall P l -> In e l -> P e.
Proof. intros F Hin. rewrite Forall_forall in F. exact (F e Hin). Qed.

End CycleShape.

(** ** The scheduler gate *)

Lemma skip_update_spec (a : Args) (j : Z) :
  0 < num_rollouts a -> 1 <= num_processes a ->
  (num_processes a | num_rollouts a) ->
  skip_update a j = Ok (negb (sub_window a j =? 0)).
Proof.
  intros Hr Hp [c Hc]. unfold skip_update, sub_window.
  destruct (Z.gtb_spec (num_rollouts a) 0) as [_ | Hle]; [| lia].
  rewrite py_floordiv_ok by lia. simpl.
  assert (Hq : num_rollouts a / num_processes a = c).
  { rewrite Hc. apply Z.div_mul. lia. }
  rewrite Hq. rewrite py_mod_ok by nia. reflexivity.
Qed.

Lemma update_fired_iff (W : World) (a : Args) (n : Z) (fuel : nat) (j : Z)
  (s s' : State W) (ev : list Event) :
  cycle W a n fuel j s = Ok (s', ev) ->
  (update_fired ev <-> skip_update a j = Ok false).
Proof.
  intros H. apply cycle_inv in H.
  destruct H as [s2 [evc [_ [Fc [_ [_ Hcases]]]]]].
  pose proof (decay_phase_events W a n j s) as Fd.
  destruct Hcases as [[Hskip [_ E]] | [Hskip [rest [Hp E]]]]; subst ev.
  - split; [| intros C; congruence].
    intros [l [c Hin]]. exfalso.
    apply in_app_or in Hin. destruct Hin as [Hin | Hin].
    { exact (In_class _ _ _ Fd Hin). }
    apply in_app_or in Hin. destruct Hin as [Hin | Hin].
    { exact (In_class _ _ _ Fc Hin). }
    simpl in Hin. destruct Hin as [C | C]; [discriminate | contradiction].
  - split; [intros _; exact Hskip | intros _].
    destruct Hp as [evs evl eve evv _ _ _ _ _ E]. subst rest.
    exists (cur_lr s2), (cur_clip s2).
    apply in_or_app. right. apply in_or_app. right.
    simpl. auto.
Qed.

(** With a positive [num_rollouts] that [num_processes] divides, a cycle
    runs the learning update exactly when its own sub-window index is 0. *)
Lemma update_fires_on_window_zero (W : World) (a : Args) (n : Z)
  (fuel : nat) (j : Z) (s s' : State W) (ev : list Event) :
  0 < num_rollouts a -> 1 <= num_processes a ->
  (num_processes a | num_rollouts a) ->
  cycle W a n fuel j s = Ok (s', ev) ->
  (update_fired ev <-> sub_window a j = 0).
Proof.
  intros Hr Hp Hd H.
  rewrite (update_fired_iff _ _ _ _ _ _ _ _ H).
  rewrite (skip_update_spec a j Hr Hp Hd).
  destruct (Z.eqb_spec (sub_window a j) 0) as [E | E]; simpl; split;
    intros C; try reflexivity; try assumption; try congruence.
Qed.

(** C1, the code at 90 rollouts over 30 workers: the run of six cycles
    updates on cycles 0 and 3, the cycles whose own sub-window index is 0,
    and only collects on cycles 2 and 5, the ones after which the index
    wraps to 0. *)
Theorem C1_gate_fires_on_window_zero :
  startup 31 args_90_30 = Ok (args_90_30, 6)
  /\ match main demo_world args_90_30 6 1 with
     | Ok (_, _, log) =>
         updates_by_cycle log
         = [(0, true); (1, false); (2, false);
            (3, true); (4, false); (5, false)]
     | _ => False
     end
  /\ map (sub_window args_90_30) (py_range 6) = [0; 1; 2; 0; 1; 2]
  /\ map (fun j => sub_window args_90_30 (j + 1)) (py_range 6)
     = [1; 2; 0; 1; 2; 0].
Proof.
  split; [vm_compute; reflexivity |].
  split; [vm_compute; reflexivity |].
  split; vm_compute; reflexivity.
Qed.

(** ** Checkpoints *)



(** ** The evaluation loop *)

Section EvalLoop.

Variable W : World.
Variable a : Args.

Lemma act_flags_app (l1 l2 : list Event) :
  act_flags (l1 ++ l2) = act_flags l1 ++ act_flags l2.
Proof. unfold act_flags. apply flat_map_app. Qed.

Lemma eval_iter_succ (k : nat) (p : Policy W) (e : EvalState W) :
  eval_iter W a (S k) p e = eval_iter W a k p (fst (eval_body W a p e)).
Proof. reflexivity. Qed.

(** A loop that returns has stopped at the first pass after which ten
    returns were there, and every policy call in it was deterministic. *)
Lemma eval_loop_stops (fuel : nat) (p : Policy W) :
  forall (e e' : EvalState W) (ev : list Event),
    eval_loop W a fuel p e = Ok (e', ev) ->
    exists k,
      (k < fuel)%nat
      /\ e' = eval_iter W a k p e
      /\ (forall i, (i < k)%nat -> gathered (eval_iter W a i p e) < 10)
      /\ 10 <= gathered e'
      /\ act_flags ev = repeat true k.
Proof.
  unfold gathered.
  induction fuel as [| fuel IH]; intros e e' ev H; simpl in H;
    [discriminate |].
  destruct (Z.ltb_spec (Z.of_nat (length (eval_episode_rewards e))) 10)
    as [Hlt | Hge].
  - destruct (eval_body_events W a p e) as [action [Eev _]].
    destruct (eval_body W a p e) as [e1 ev1] eqn:Eb. simpl in Eev.
    apply bind_ok in H. destruct H as [[e2 ev2] [Hloop H]]. simpl in H.
    inversion H. subst e' ev. clear H.
    destruct (IH _ _ _ Hloop) as [k [Hk [Ee [Hbefore [Hdone Hflags]]]]].
    exists (S k). rewrite eval_iter_succ, Eb. simpl.
    split; [lia |]. split; [exact Ee |]. split; [| split].
    + intros [| i] Hi; simpl; [exact Hlt |].
      rewrite Eb. simpl. apply Hbefore. lia.
    + exact Hdone.
    + rewrite act_flags_app, Hflags. subst ev1. reflexivity.
  - inversion H. subst. exists O. simpl.
    split; [lia |]. split; [reflexivity |]. split; [intros i Hi; lia |].
    split; [exact Hge | reflexivity].
Qed.

(** If ten returns are there after [k] passes and not before, the loop
    returns after those [k] passes. *)
Lemma eval_loop_progress (p : Policy W) :
  forall (k : nat) (e : EvalState W),
    (forall i, (i < k)%nat -> gathered (eval_iter W a i p e) < 10) ->
    10 <= gathered (eval_iter W a k p e) ->
    forall fuel, (k < fuel)%nat ->
      exists ev, eval_loop W a fuel p e = Ok (eval_iter W a k p e, ev).
Proof.
  unfold gathered.
  induction k as [| k IH]; intros e Hbefore Hdone fuel Hf;
    (destruct fuel as [| fuel]; [lia |]); simpl.
  - simpl in Hdone.
    destruct (Z.ltb_spec (Z.of_nat (length (eval_episode_rewards e))) 10)
      as [Hlt | Hge]; [lia |].
    exists []. reflexivity.
  - pose proof (Hbefore O ltac:(lia)) as H0. simpl in H0.
    destruct (Z.ltb_spec (Z.of_nat (length (eval_episode_rewards e))) 10)
      as [Hlt | Hge]; [| lia].
    destruct (eval_body W a p e) as [e1 ev1] eqn:Eb. simpl.
    destruct (IH e1) with (fuel := fuel) as [ev2 Hev2].
    + intros i Hi. specialize (Hbefore (S i) ltac:(lia)).
      simpl in Hbefore. rewrite Eb in Hbefore. exact Hbefore.
    + simpl in Hdone. rewrite Eb in Hdone. exact Hdone.
    + lia.
    + rewrite Hev2. simpl. exists (ev1 ++ ev2). reflexivity.
Qed.

Lemma eval_start_envs (s : State W) :
  eval_envs (eval_start W a s)
  = fst (env_reset W
           (share_ob_rms W
              (make_vec_envs W (seed a + num_processes a)
                             (num_processes a) true true)
              (envs s))).
Proof.
  unfold eval_start. destruct (env_reset W _) as [envs' ob]. reflexivity.
Qed.


Lemma eval_iter_lists (p : Policy W) :
  forall (k : nat) (e : EvalState W),
    eval_reward_list_robot1 (eval_iter W a k p e)
    = eval_reward_list_robot1 e
    /\ eval_reward_list_robot2 (eval_iter W a k p e)
       = eval_reward_list_robot2 e.
Proof.
  induction k as [| k IH]; intros e; simpl; [auto |].
  destruct (eval_body_events W a p e) as [_ [_ [R1 R2]]].
  destruct (IH (fst (eval_body W a p e))) as [Q1 Q2].
  split; congruence.
Qed.

End EvalLoop.

(** An evaluation inside a cycle: its place among the steps and the loop
    it ran. *)
Lemma evaluation_in_cycle (W : World) (a : Args) (n : Z) (fuel : nat) (j : Z)
  (s s' : State W) (ev : list Event) :
  cycle W a n fuel j s = Ok (s', ev) ->
  evaluation_ran ev ->
  eval_due W a j s' = Ok true
  /\ exists e evl pre post,
       eval_loop W a fuel (actor_critic s') (eval_start W a s') = Ok (e, evl)
       /\ ev = pre
               ++ [EvMakeVecEnvs (seed a + num_processes a)
                                 (num_processes a) true true]
               ++ evl
               ++ [EvClose; EvEvalPrint (length (eval_episode_rewards e))]
               ++ post.
Proof.
  intros H Hran. unfold evaluation_ran in Hran.
  apply cycle_inv in H.
  destruct H as [s2 [evc [_ [Fc [_ [_ Hcases]]]]]].
  pose proof (decay_phase_events W a n j s) as Fd.
  destruct Hcases as [[Hskip [_ E]] | [Hskip [rest [Hp E]]]]; subst ev.
  - exfalso.
    apply in_app_or in Hran. destruct Hran as [Hin | Hin].
    { exact (In_class _ _ _ Fd Hin). }
    apply in_app_or in Hin. destruct Hin as [Hin | Hin].
    { exact (In_class _ _ _ Fc Hin). }
    simpl in Hin. destruct Hin as [C | C]; [discriminate | contradiction].
  - destruct Hp as [evs evl eve evv _ Hs Hl He Hv E]. subst rest.
    apply save_phase_inv in Hs. destruct Hs as [_ Hs].
    apply log_phase_inv in Hl.
    apply vis_phase_inv in Hv.
    apply eval_phase_inv in He.
    destruct He as [[_ E] | [Hdue [e [evloop [Hloop E]]]]]; subst eve.
    + exfalso.
      apply in_app_or in Hran. destruct Hran as [Hin | Hin].
      { exact (In_class _ _ _ Fd Hin). }
      apply in_app_or in Hin. destruct Hin as [Hin | Hin].
      { exact (In_class _ _ _ Fc Hin). }
      apply in_app_or in Hin. destruct Hin as [Hin | Hin].
      { simpl in Hin.
        destruct Hin as [C | [C | [C | [C | C]]]];
          try discriminate; contradiction. }
      apply in_app_or in Hin. destruct Hin as [Hin | Hin].
      { destruct Hs as [[E _] | [E _]]; subst evs; simpl in Hin;
          [destruct Hin as [C | C]; [discriminate | contradiction]
          | contradiction]. }
      apply in_app_or in Hin. destruct Hin as [Hin | Hin].
      { destruct Hl as [E | [t E]]; subst evl; simpl in Hin;
          [contradiction
          | destruct Hin as [C | C]; [discriminate | contradiction]]. }
      simpl in Hin.
      destruct Hv as [E | E]; subst evv; simpl in Hin;
        [contradiction
        | destruct Hin as [C | C]; [discriminate | contradiction]].
    + split; [exact Hdue |].
      exists e, evloop.
      exists (snd (decay_phase W a n j s) ++ evc
              ++ [EvGetValue; EvComputeReturns;
                  EvUpdate (cur_lr s2) (cur_clip s2); EvAfterUpdate]
              ++ evs ++ evl), evv.
      split; [exact Hloop |].
      repeat rewrite <- app_assoc. reflexivity.
Qed.

(** C7: an evaluation runs in cycle [j] only when [eval_interval] is set,
    [j] is a multiple of it and the log holds at least two episode returns.
    When it runs, its environments are made afresh with seed
    [seed + num_processes], every policy call in its loop is deterministic,
    and the loop has stopped after the first pass that brought the
    gathered returns to ten or more (and it does stop there whenever such a
    pass exists). *)
Theorem C7_evaluation_gating_and_stopping (W : World) (a : Args) (n : Z)
  (fuel : nat) (j : Z) (s s' : State W) (ev : list Event) :
  cycle W a n fuel j s = Ok (s', ev) ->
  evaluation_ran ev ->
  (exists interval, eval_interval a = Some interval /\ (interval | j))
  /\ 2 <= deque_size (episode_rewards s')
  /\ (exists e evl pre post k,
        eval_loop W a fuel (actor_critic s') (eval_start W a s')
        = Ok (e, evl)
        /\ ev = pre
                ++ [EvMakeVecEnvs (seed a + num_processes a)
                                  (num_processes a) true true]
                ++ evl
                ++ [EvClose; EvEvalPrint (length (eval_episode_rewards e))]
                ++ post
        /\ eval_envs (eval_start W a s')
           = fst (env_reset W
                    (share_ob_rms W
                       (make_vec_envs W (seed a + num_processes a)
                                      (num_processes a) true true)
                       (envs s')))
        /\ act_flags evl = repeat true k
        /\ e = eval_iter W a k (actor_critic s') (eval_start W a s')
        /\ (forall i, (i < k)%nat ->
              gathered (eval_iter W a i (actor_critic s')
                                  (eval_start W a s')) < 10)
        /\ 10 <= gathered e)
  /\ (forall p e0 k,
        (forall i, (i < k)%nat -> gathered (eval_iter W a i p e0) < 10) ->
        10 <= gathered (eval_iter W a k p e0) ->
        forall fuel', (k < fuel')%nat ->
          exists evl',
            eval_loop W a fuel' p e0 = Ok (eval_iter W a k p e0, evl')).
Proof.
  intros H Hran.
  destruct (evaluation_in_cycle _ _ _ _ _ _ _ _ H Hran)
    as [Hdue [e [evl [pre [post [Hloop E]]]]]].
  apply eval_due_inv in Hdue.
  destruct Hdue as [interval [Hi [_ [Hdiv Hsz]]]].
  split; [exists interval; split; assumption |].
  split; [exact Hsz |]. split.
  - destruct (eval_loop_stops W a fuel _ _ _ _ Hloop)
      as [k [_ [Ee [Hbefore [Hdone Hflags]]]]].
    exists e, evl, pre, post, k.
    split; [exact Hloop |]. split; [exact E |].
    split; [apply eval_start_envs |].
    split; [exact Hflags |]. split; [exact Ee |].
    split; [exact Hbefore | exact Hdone].
  - intros p e0 k Hbefore Hdone fuel' Hf.
    exact (eval_loop_progress W a p k e0 Hbefore Hdone fuel' Hf).
Qed.

Lemma C7_evaluation_gating_and_stopping_witness :
  (exists interval,
     eval_interval demo_args = Some interval /\ (interval | 0))
  /\ 2 <= deque_size (episode_rewards (fst demo_after0))
  /\ (exists e evl pre post k,
        eval_loop demo_world demo_args 20
                  (actor_critic (fst demo_after0))
                  (eval_start demo_world demo_args (fst demo_after0))
        = Ok (e, evl)
        /\ snd demo_after0
           = pre
             ++ [EvMakeVecEnvs (seed demo_args + num_processes demo_args)
                               (num_processes demo_args) true true]
             ++ evl
             ++ [EvClose; EvEvalPrint (length (eval_episode_rewards e))]
             ++ post
        /\ eval_envs (eval_start demo_world demo_args (fst demo_after0))
           = fst (env_reset demo_world
                    (share_ob_rms demo_world
                       (make_vec_envs demo_world
                          (seed demo_args + num_processes demo_args)
                          (num_processes demo_args) true true)
                       (envs (fst demo_after0))))
        /\ act_flags evl = repeat true k
        /\ e = eval_iter demo_world demo_args k
                         (actor_critic (fst demo_after0))
                         (eval_start demo_world demo_args (fst demo_after0))
        /\ (forall i, (i < k)%nat ->
              gathered (eval_iter demo_world demo_args i
                                  (actor_critic (fst demo_after0))
                                  (eval_start demo_world demo_args
                                              (fst demo_after0))) < 10)
        /\ 10 <= gathered e)
  /\ (forall p e0 k,
        (forall i, (i < k)%nat ->
           gathered (eval_iter demo_world demo_args i p e0) < 10) ->
        10 <= gathered (eval_iter demo_world demo_args k p e0) ->
        forall fuel', (k < fuel')%nat ->
          exists evl',
            eval_loop demo_world demo_args fuel' p e0
            = Ok (eval_iter demo_world demo_args k p e0, evl')).
Proof.
  apply (C7_evaluation_gating_and_stopping demo_world demo_args 5 20 0
           (fst demo_setup) (fst demo_after0) (snd demo_after0)).
  - vm_compute. reflexivity.
  - unfold evaluation_ran. vm_compute.
    repeat (first [left; reflexivity | right]).
Defined.

(** ** What the steps of a cycle can be *)

Lemma cycle_event_kinds (W : World) (a : Args) (n : Z) (fuel : nat) (j : Z)
  (s s' : State W) (ev : list Event) :
  cycle W a n fuel j s = Ok (s', ev) ->
  forall e, In e ev ->
    decay_event e \/ collect_event e \/ e = EvContinue
    \/ In e [EvGetValue; EvComputeReturns;
             EvUpdate (cur_lr s') (cur_clip s'); EvAfterUpdate]
    \/ e = EvSave j \/ (exists t, e = EvPrint j t)
    \/ eval_event e \/ e = EvVisdom j.
Proof.
  intros H e Hin. apply cycle_inv in H.
  destruct H as [s2 [evc [_ [Fc [_ [_ Hcases]]]]]].
  pose proof (decay_phase_events W a n j s) as Fd.
  destruct Hcases as [[Hskip [_ E]] | [Hskip [rest [Hp E]]]]; subst ev.
  - apply in_app_or in Hin. destruct Hin as [Hin | Hin].
    { left. exact (In_class _ _ _ Fd Hin). }
    apply in_app_or in Hin. destruct Hin as [Hin | Hin].
    { right. left. exact (In_class _ _ _ Fc Hin). }
    simpl in Hin. destruct Hin as [C | C]; [| contradiction].
    right. right. left. symmetry. exact C.
  - destruct Hp as [evs evl eve evv Hu Hs Hl He Hv E]. subst rest.
    apply update_phase_inv in Hu. destruct Hu as [_ [Hlr [Hclip _]]].
    apply save_phase_inv in Hs. destruct Hs as [_ Hs].
    apply log_phase_inv in Hl.
    apply eval_phase_events in He.
    apply vis_phase_inv in Hv.
    apply in_app_or in Hin. destruct Hin as [Hin | Hin].
    { left. exact (In_class _ _ _ Fd Hin). }
    apply in_app_or in Hin. destruct Hin as [Hin | Hin].
    { right. left. exact (In_class _ _ _ Fc Hin). }
    apply in_app_or in Hin. destruct Hin as [Hin | Hin].
    { right. right. right. left. rewrite Hlr, Hclip. exact Hin. }
    apply in_app_or in Hin. destruct Hin as [Hin | Hin].
    { do 4 right. left.
      destruct Hs as [[E _] | [E _]]; subst evs; simpl in Hin;
        [destruct Hin as [C | C]; [symmetry; exact C | contradiction]
        | contradiction]. }
    apply in_app_or in Hin. destruct Hin as [Hin | Hin].
    { do 5 right. left.
      destruct Hl as [E | [t E]]; subst evl; simpl in Hin;
        [contradiction
        | destruct Hin as [C | C];
          [exists t; symmetry; exact C | contradiction]]. }
    apply in_app_or in Hin. destruct Hin as [Hin | Hin].
    { do 6 right. left. exact (In_class _ _ _ He Hin). }
    do 7 right.
    destruct Hv as [E | E]; subst evv; simpl in Hin;
      [contradiction
      | destruct Hin as [C | C]; [symmetry; exact C | contradiction]].
Qed.

(** ** The linear schedules *)

Lemma decay_phase_lr (W : World) (a : Args) (n j : Z) (s : State W) :
  use_linear_lr_decay a = true ->
  cur_lr (fst (decay_phase W a n j s))
  = update_linear_schedule j n (initial_lr W a (actor_critic s))
  /\ In (EvSchedule j n (initial_lr W a (actor_critic s)))
        (snd (decay_phase W a n j s)).
Proof.
  intros Hd. unfold decay_phase, initial_lr. rewrite Hd.
  destruct (String.eqb (algo a) "ppo" && use_linear_clip_decay a);
    simpl; auto.
Qed.

Lemma decay_phase_clip (W : World) (a : Args) (n j : Z) (s : State W) :
  algo a = "ppo"%string -> use_linear_clip_decay a = true ->
  cur_clip (fst (decay_phase W a n j s))
  = (clip_param a * (1 - inject_Z j / inject_Z n))%Q
  /\ In (EvClip (clip_param a * (1 - inject_Z j / inject_Z n))%Q)
        (snd (decay_phase W a n j s)).
Proof.
  intros Ha Hd. unfold decay_phase. rewrite Ha, Hd. simpl.
  destruct (use_linear_lr_decay a); simpl; auto.
Qed.

Lemma cycle_keeps_decayed (W : World) (a : Args) (n : Z) (fuel : nat) (j : Z)
  (s s' : State W) (ev : list Event) :
  cycle W a n fuel j s = Ok (s', ev) ->
  cur_lr s' = cur_lr (fst (decay_phase W a n j s))
  /\ cur_clip s' = cur_clip (fst (decay_phase W a n j s))
  /\ exists rest, ev = snd (decay_phase W a n j s) ++ rest.
Proof.
  intros H. apply cycle_inv in H.
  destruct H as [s2 [evc [_ [_ [Hlr [Hclip Hcases]]]]]].
  destruct Hcases as [[_ [Es E]] | [_ [rest [Hp E]]]].
  - subst s' ev. split; [exact Hlr |]. split; [exact Hclip |].
    eexists. reflexivity.
  - destruct Hp as [evs evl eve evv Hu _ _ _ _ _].
    apply update_phase_inv in Hu. destruct Hu as [_ [L [C _]]].
    split; [congruence |]. split; [congruence |].
    subst ev. eexists. reflexivity.
Qed.

(** C8: on every cycle [j] that runs to its end, whether the gate lets it
    pass or makes it continue, the schedules are applied first and with
    [j]: with the linear decay enabled the learning rate after the cycle is
    the base rate times [1 - j / num_updates] (the base rate is [args.lr],
    or the optimiser's own rate for ACKTR), and for PPO with the clip decay
    enabled [agent.clip_param] is [clip_param * (1 - j / num_updates)];
    an update that fires in the cycle runs under these values. *)
Theorem C8_decay_on_every_cycle (W : World) (a : Args) (n : Z) (fuel : nat)
  (j : Z) (s s' : State W) (ev : list Event) :
  cycle W a n fuel j s = Ok (s', ev) ->
  (exists rest, ev = snd (decay_phase W a n j s) ++ rest)
  /\ (use_linear_lr_decay a = true ->
      cur_lr s'
      = (initial_lr W a (actor_critic s)
         * (1 - inject_Z j / inject_Z n))%Q
      /\ In (EvSchedule j n (initial_lr W a (actor_critic s)))
            (snd (decay_phase W a n j s)))
  /\ (algo a = "ppo"%string -> use_linear_clip_decay a = true ->
      cur_clip s' = (clip_param a * (1 - inject_Z j / inject_Z n))%Q
      /\ In (EvClip (clip_param a * (1 - inject_Z j / inject_Z n))%Q)
            (snd (decay_phase W a n j s)))
  /\ (update_fired ev <-> skip_update a j = Ok false)
  /\ (forall l c, In (EvUpdate l c) ev -> l = cur_lr s' /\ c = cur_clip s').
Proof.
  intros H.
  destruct (cycle_keeps_decayed _ _ _ _ _ _ _ _ H) as [Hlr [Hclip Hfirst]].
  split; [exact Hfirst |]. split; [| split; [| split]].
  - intros Hd. rewrite Hlr.
    destruct (decay_phase_lr W a n j s Hd) as [E Hin].
    split; [exact E | exact Hin].
  - intros Ha Hd. rewrite Hclip.
    exact (decay_phase_clip W a n j s Ha Hd).
  - exact (update_fired_iff _ _ _ _ _ _ _ _ H).
  - intros l c Hin.
    destruct (cycle_event_kinds _ _ _ _ _ _ _ _ H _ Hin)
      as [K | [K | [K | [K | [K | [[t K] | [K | K]]]]]]];
      try (simpl in K; contradiction); try discriminate.
    simpl in K. destruct K as [C | [C | [C | [C | C]]]];
      try discriminate; try contradiction.
    inversion C. auto.
Qed.

(** Cycle 1 of the demo run is collection-only. *)
Lemma C8_decay_on_every_cycle_witness :
  (exists rest,
     snd demo_after1
     = snd (decay_phase demo_world demo_args 5 1 (fst demo_after0)) ++ rest)
  /\ (use_linear_lr_decay demo_args = true ->
      cur_lr (fst demo_after1)
      = (initial_lr demo_world demo_args (actor_critic (fst demo_after0))
         * (1 - inject_Z 1 / inject_Z 5))%Q
      /\ In (EvSchedule 1 5 (initial_lr demo_world demo_args
                                        (actor_critic (fst demo_after0))))
            (snd (decay_phase demo_world demo_args 5 1 (fst demo_after0))))
  /\ (algo demo_args = "ppo"%string ->
      use_linear_clip_decay demo_args = true ->
      cur_clip (fst demo_after1)
      = (clip_param demo_args * (1 - inject_Z 1 / inject_Z 5))%Q
      /\ In (EvClip (clip_param demo_args * (1 - inject_Z 1 / inject_Z 5))%Q)
            (snd (decay_phase demo_world demo_args 5 1 (fst demo_after0))))
  /\ (update_fired (snd demo_after1) <-> skip_update demo_args 1 = Ok false)
  /\ (forall l c, In (EvUpdate l c) (snd demo_after1) ->
                  l = cur_lr (fst demo_after1)
                  /\ c = cur_clip (fst demo_after1)).
Proof.
  apply (C8_decay_on_every_cycle demo_world demo_args 5 20 1
           (fst demo_after0) (fst demo_after1) (snd demo_after1)).
  vm_compute. reflexivity.
Defined.

(** ** The reset flag of the evaluation loop *)

(** C9: [reset_rewards] is false in every pass of the evaluation loop, so
    the branch that would clear [eval_reward_list_robot1] and
    [eval_reward_list_robot2] is never taken: no evaluation, and no cycle
    around it, contains that step, and both lists stay as they were when
    the loop started, pass after pass. *)
Theorem C9_reset_rewards_is_dead (W : World) (a : Args) (fuel : nat)
  (p : Policy W) (e e' : EvalState W) (ev : list Event) :
  eval_loop W a fuel p e = Ok (e', ev) ->
  ~ In EvResetEvalRewards ev
  /\ eval_reward_list_robot1 e' = eval_reward_list_robot1 e
  /\ eval_reward_list_robot2 e' = eval_reward_list_robot2 e
  /\ (forall k,
        ~ In EvResetEvalRewards (snd (eval_body W a p (eval_iter W a k p e)))
        /\ eval_reward_list_robot1 (eval_iter W a k p e)
           = eval_reward_list_robot1 e
        /\ eval_reward_list_robot2 (eval_iter W a k p e)
           = eval_reward_list_robot2 e)
  /\ (forall n j s s' evc,
        cycle W a n fuel j s = Ok (s', evc) ->
        ~ In EvResetEvalRewards evc).
Proof.
  intros H.
  destruct (eval_loop_facts W a fuel p _ _ _ H) as [_ [Hno [R1 [R2 _]]]].
  split; [exact Hno |]. split; [exact R1 |]. split; [exact R2 |]. split.
  - intros k.
    destruct (eval_iter_lists W a p k e) as [Q1 Q2].
    split; [| split; assumption].
    destruct (eval_body_events W a p (eval_iter W a k p e))
      as [action [E _]].
    rewrite E. simpl. intros [C | [C | C]];
      [discriminate | discriminate | contradiction].
  - intros n j s s' evc Hc Hin.
    destruct (cycle_event_kinds _ _ _ _ _ _ _ _ Hc _ Hin)
      as [K | [K | [K | [K | [K | [[t K] | [K | K]]]]]]];
      try (simpl in K; contradiction); try discriminate.
    simpl in K. destruct K as [C | [C | [C | [C | C]]]];
      try discriminate; contradiction.
Qed.

Lemma C9_reset_rewards_is_dead_witness :
  ~ In EvResetEvalRewards (snd demo_eval)
  /\ eval_reward_list_robot1 (fst demo_eval)
     = eval_reward_list_robot1
         (eval_start demo_world demo_args (fst demo_after0))
  /\ eval_reward_list_robot2 (fst demo_eval)
     = eval_reward_list_robot2
         (eval_start demo_world demo_args (fst demo_after0))
  /\ (forall k,
        ~ In EvResetEvalRewards
             (snd (eval_body demo_world demo_args tt
                     (eval_iter demo_world demo_args k tt
                        (eval_start demo_world demo_args (fst demo_after0)))))
        /\ eval_reward_list_robot1
             (eval_iter demo_world demo_args k tt
                (eval_start demo_world demo_args (fst demo_after0)))
           = eval_reward_list_robot1
               (eval_start demo_world demo_args (fst demo_after0))
        /\ eval_reward_list_robot2
             (eval_iter demo_world demo_args k tt
                (eval_start demo_world demo_args (fst demo_after0)))
           = eval_reward_list_robot2
               (eval_start demo_world demo_args (fst demo_after0)))
  /\ (forall n j s s' evc,
        cycle demo_world demo_args n 20 j s = Ok (s', evc) ->
        ~ In EvResetEvalRewards evc).
Proof.
  apply (C9_reset_rewards_is_dead demo_world demo_args 20 tt
           (eval_start demo_world demo_args (fst demo_after0))
           (fst demo_eval) (snd demo_eval)).
  vm_compute. reflexivity.
Defined.

(** ** The sub-window read during collection *)

Lemma take_columns {A : Type} (m : Z) (b : list A) :
  0 <= m -> take m b = columns 0 (Z.to_nat m) b.
Proof.
  intros Hm. unfold take, columns.
  destruct (Z.ltb_spec m 0) as [C | _]; [lia |].
  rewrite Nat.sub_0_r. reflexivity.
Qed.

Lemma columns_nth_error {A : Type} (lo hi : nat) (b : list A) (i : nat) :
  nth_error (columns lo hi b) i
  = if (i <? hi - lo)%nat then nth_error b (lo + i) else None.
Proof.
  unfold columns. rewrite nth_error_firstn.
  destruct (i <? hi - lo)%nat; [apply nth_error_skipn | reflexivity].
Qed.

Lemma py_range_split (n t : Z) :
  0 <= t < n ->
  exists later, py_range n = py_range t ++ t :: later
                /\ length (py_range t) = Z.to_nat t.
Proof.
  intros Ht. unfold py_range.
  replace (Z.to_nat n)
    with (Z.to_nat t + S (Z.to_nat n - S (Z.to_nat t)))%nat by lia.
  rewrite seq_app, map_app. simpl.
  exists (map Z.of_nat (seq (S (Z.to_nat t)) (Z.to_nat n - S (Z.to_nat t)))).
  split.
  - rewrite Z2Nat.id by lia. reflexivity.
  - rewrite length_map, length_seq. reflexivity.
Qed.

Section Collection.

Variable W : World.
Variable a : Args.

Lemma collect_steps_nth (Hp : 0 <= num_processes a) :
  forall (before : list Z) (t : Z) (later : list Z)
         (s s' : State W) (ev : list Event),
    collect_steps W a (before ++ t :: later) s = Ok (s', ev) ->
    exists st evb o h m,
      collect_steps W a before s = Ok (st, evb)
      /\ slot (obs (rollouts st)) t = Ok o
      /\ slot (recurrent_hidden_states (rollouts st)) t = Ok h
      /\ slot (masks (rollouts st)) t = Ok m
      /\ nth_error ev (3 * length before)
         = Some (EvAct (columns 0 (Z.to_nat (num_processes a)) o)
                       (columns 0 (Z.to_nat (num_processes a)) h)
                       (columns 0 (Z.to_nat (num_processes a)) m)
                       false).
Proof.
  induction before as [| x before IH]; intros t later s s' ev H;
    simpl in H.
  - apply bind_ok in H. destruct H as [[s1 ev1] [H1 H]]. simpl in H.
    apply bind_ok in H. destruct H as [[s2 ev2] [_ H]]. simpl in H.
    inversion H. subst s' ev. clear H.
    apply collect_step_inv in H1.
    destruct H1 as [o [h [m [Ho [Hh [Hm [[action E] _]]]]]]].
    exists s, [], o, h, m. simpl.
    split; [reflexivity |]. repeat (split; [assumption |]).
    subst ev1. repeat rewrite (take_columns _ _ Hp). reflexivity.
  - apply bind_ok in H. destruct H as [[s1 ev1] [H1 H]]. simpl in H.
    apply bind_ok in H. destruct H as [[s2 ev2] [H2 H]]. simpl in H.
    inversion H. subst s' ev. clear H.
    destruct (IH _ _ _ _ _ H2) as [st [evb [o [h [m [Hb [Ho [Hh [Hm Hn]]]]]]]]].
    exists st, (ev1 ++ evb), o, h, m.
    split; [simpl; rewrite H1; simpl; rewrite Hb; reflexivity |].
    repeat (split; [assumption |]).
    apply collect_step_inv in H1.
    destruct H1 as [o1 [h1 [m1 [_ [_ [_ [[action E] _]]]]]]]. subst ev1.
    replace (3 * length (x :: before))%nat
      with (3 + 3 * length before)%nat by (simpl; lia).
    exact Hn.
Qed.

Lemma collect_step_same (step : Z) (s r s' : State W) (ev : list Event) :
  same_data s r ->
  collect_step W a step s = Ok (s', ev) ->
  exists r', collect_step W a step r = Ok (r', ev) /\ same_data s' r'.
Proof.
  intros [He [Hp [Hr Hl]]] H. unfold collect_step in *.
  rewrite <- He, <- Hp, <- Hr, <- Hl.
  apply bind_ok in H. destruct H as [o [Ho H]]. rewrite Ho. simpl.
  apply bind_ok in H. destruct H as [h [Hh H]]. rewrite Hh. simpl.
  apply bind_ok in H. destruct H as [m [Hm H]]. rewrite Hm. simpl.
  destruct (act W _ _ _ _ _) as [[[value action] logp] hidden].
  destruct (env_step W _ _) as [envs' [[[ob reward] done] infos]].
  inversion H. subst s' ev. eexists. split; [reflexivity |].
  unfold same_data. simpl. auto.
Qed.

Lemma collect_steps_same (steps : list Z) :
  forall (s r s' : State W) (ev : list Event),
    same_data s r ->
    collect_steps W a steps s = Ok (s', ev) ->
    exists r', collect_steps W a steps r = Ok (r', ev) /\ same_data s' r'.
Proof.
  induction steps as [| step steps IH]; intros s r s' ev Hsame H;
    simpl in H.
  - inversion H. subst. exists r. split; [reflexivity | exact Hsame].
  - apply bind_ok in H. destruct H as [[s1 ev1] [H1 H]]. simpl in H.
    apply bind_ok in H. destruct H as [[s2 ev2] [H2 H]]. simpl in H.
    inversion H. subst s' ev. clear H.
    destruct (collect_step_same _ _ _ _ _ Hsame H1) as [r1 [Hr1 Hs1]].
    destruct (IH _ _ _ _ Hs1 H2) as [r2 [Hr2 Hs2]].
    exists r2. simpl. rewrite Hr1. simpl. rewrite Hr2. simpl.
    split; [reflexivity | exact Hs2].
Qed.

Lemma decay_phase_same (n j j' : Z) (s : State W) :
  same_data (fst (decay_phase W a n j s)) (fst (decay_phase W a n j' s)).
Proof.
  destruct (decay_phase_rest W a n j s) as [E1 [P1 [R1 L1]]].
  destruct (decay_phase_rest W a n j' s) as [E2 [P2 [R2 L2]]].
  unfold same_data. repeat split; congruence.
Qed.

(** Line 116 under the divisibility invariant. *)
Lemma tiled_obs_divisible (ob : Batch) :
  0 < num_rollouts a -> 1 <= num_processes a ->
  (num_processes a | num_rollouts a) ->
  tiled_obs a ob
  = Ok (concat (repeat ob (Z.to_nat (num_rollouts a / num_processes a))))
  /\ take (num_rollouts a mod num_processes a) ob = [].
Proof.
  intros Hr Hp Hd. unfold tiled_obs.
  rewrite py_floordiv_ok by lia. simpl.
  rewrite py_mod_ok by lia. simpl.
  assert (Hm : num_rollouts a mod num_processes a = 0)
    by (apply Z.mod_divide; [lia | exact Hd]).
  rewrite Hm. unfold take. simpl.
  rewrite concat_app. simpl. rewrite app_nil_r. auto.
Qed.

Lemma concat_repeat_length (ob : Batch) (q : nat) :
  length (concat (repeat ob q)) = (q * length ob)%nat.
Proof.
  induction q as [| q IH]; simpl; [reflexivity |].
  rewrite length_app, IH. reflexivity.
Qed.

Lemma slot_0_cons (x : Batch) (t : Buffer) : slot (x :: t) 0 = Ok x.
Proof.
  unfold slot. simpl.
  destruct (Z.leb_spec (Z.pos (Pos.of_succ_nat (length t))) 0); [lia |].
  reflexivity.
Qed.

Lemma setup_slot0 (s0 : State W) (ev0 : list Event) :
  0 < num_rollouts a ->
  setup W a = Ok (s0, ev0) ->
  exists first,
    tiled_obs a (reset_obs W a) = Ok first
    /\ slot (obs (rollouts s0)) 0 = Ok first.
Proof.
  intros Hr H. unfold setup, reset_obs in *.
  destruct (setup_policy W a) as [policy envs1]. simpl.
  destruct (env_reset W envs1) as [envs2 ob]. simpl.
  destruct (Z.gtb_spec (num_rollouts a) 0) as [_ | C]; [| lia].
  apply bind_ok in H. destruct H as [first [Hf H]].
  apply bind_ok in H. destruct H as [obs' [Hc H]].
  inversion H. subst s0 ev0. simpl.
  exists first. split; [exact Hf |].
  unfold copy_slot0 in Hc.
  destruct (obs (new_storage W _ _ envs1 policy)) as [| old t];
    [discriminate |].
  inversion Hc. apply slot_0_cons.
Qed.

End Collection.

(** C10: in every cycle [j] that runs to its end, the collection loop calls
    the policy, at each step [t] of [range(num_steps)], on columns
    [0, num_processes) of slot [t] of the three buffers as the storage holds
    them at that step; the same collection happens whatever the cycle index
    (hence whatever the sub-window index).  With [num_rollouts > 0]
    divisible by [num_processes], the batch [setup] copies into slot 0 is
    the reset observation batch repeated [num_rollouts / num_processes]
    times, the trailing slice being empty, and it is [num_rollouts] rows
    long when the reset batch has one row per worker. *)
Theorem C10_collection_reads_fixed_window (W : World) (a : Args) (n : Z)
  (fuel : nat) (j : Z) (s s' : State W) (ev : list Event) :
  1 <= num_processes a ->
  cycle W a n fuel j s = Ok (s', ev) ->
  (exists s2 evc rest,
     ev = snd (decay_phase W a n j s) ++ evc ++ rest
     /\ collection_phase W a (fst (decay_phase W a n j s)) = Ok (s2, evc)
     /\ (forall t, 0 <= t < num_steps a ->
           exists st evb o h m,
             collect_steps W a (py_range t) (fst (decay_phase W a n j s))
             = Ok (st, evb)
             /\ slot (obs (rollouts st)) t = Ok o
             /\ slot (recurrent_hidden_states (rollouts st)) t = Ok h
             /\ slot (masks (rollouts st)) t = Ok m
             /\ nth_error evc (3 * Z.to_nat t)
                = Some (EvAct (columns 0 (Z.to_nat (num_processes a)) o)
                              (columns 0 (Z.to_nat (num_processes a)) h)
                              (columns 0 (Z.to_nat (num_processes a)) m)
                              false))
     /\ (forall j',
           exists s2',
             collection_phase W a (fst (decay_phase W a n j' s))
             = Ok (s2', evc)
             /\ same_data s2 s2'))
  /\ (forall (b : Batch) (i : nat),
        nth_error (columns 0 (Z.to_nat (num_processes a)) b) i
        = if (i <? Z.to_nat (num_processes a))%nat
          then nth_error b i else None)
  /\ (0 < num_rollouts a -> (num_processes a | num_rollouts a) ->
      let tiled :=
        concat (repeat (reset_obs W a)
                       (Z.to_nat (num_rollouts a / num_processes a))) in
      tiled_obs a (reset_obs W a) = Ok tiled
      /\ take (num_rollouts a mod num_processes a) (reset_obs W a) = []
      /\ (Z.of_nat (length (reset_obs W a)) = num_processes a ->
          Z.of_nat (length tiled) = num_rollouts a)
      /\ forall s0 ev0,
           setup W a = Ok (s0, ev0) ->
           slot (obs (rollouts s0)) 0 = Ok tiled).
Proof.
  intros Hp H. split; [| split].
  - apply cycle_inv in H.
    destruct H as [s2 [evc [Hc [_ [_ [_ Hcases]]]]]].
    assert (Hev : exists rest,
               ev = snd (decay_phase W a n j s) ++ evc ++ rest).
    { destruct Hcases as [[_ [_ E]] | [_ [rest [_ E]]]];
        eexists; exact E. }
    destruct Hev as [rest Hev].
    exists s2, evc, rest.
    split; [exact Hev |]. split; [exact Hc |]. split.
    + intros t Ht. unfold collection_phase in Hc.
      destruct (py_range_split (num_steps a) t Ht) as [later [Hsplit Hlen]].
      rewrite Hsplit in Hc.
      destruct (collect_steps_nth W a ltac:(lia) _ _ _ _ _ _ Hc)
        as [st [evb [o [h [m [Hb [Ho [Hh [Hm Hn]]]]]]]]].
      exists st, evb, o, h, m. rewrite Hlen in Hn. auto.
    + intros j'. unfold collection_phase in *.
      exact (collect_steps_same W a _ _ _ _ _
               (decay_phase_same W a n j j' s) Hc).
  - intros b i. rewrite columns_nth_error.
    rewrite Nat.sub_0_r. reflexivity.
  - intros Hr Hd tiled.
    destruct (tiled_obs_divisible a (reset_obs W a) Hr Hp Hd) as [Ht Hnil].
    split; [exact Ht |]. split; [exact Hnil |]. split.
    + intros Hlen. unfold tiled. rewrite concat_repeat_length.
      destruct Hd as [c Hc]. rewrite Hc.
      rewrite Z.div_mul by lia.
      rewrite Nat2Z.inj_mul, Hlen. rewrite Z2Nat.id by nia. reflexivity.
    + intros s0 ev0 Hs.
      destruct (setup_slot0 W a s0 ev0 Hr Hs) as [first [Hf Hslot]].
      rewrite Ht in Hf. inversion Hf. subst first. exact Hslot.
Qed.

(** Cycle 1 of the demo run, whose sub-window index is 1. *)
Lemma C10_collection_reads_fixed_window_witness :
  (exists s2 evc rest,
     snd demo_after1
     = snd (decay_phase demo_world demo_args 5 1 (fst demo_after0))
       ++ evc ++ rest
     /\ collection_phase demo_world demo_args
          (fst (decay_phase demo_world demo_args 5 1 (fst demo_after0)))
        = Ok (s2, evc)
     /\ (forall t, 0 <= t < num_steps demo_args ->
           exists st evb o h m,
             collect_steps demo_world demo_args (py_range t)
               (fst (decay_phase demo_world demo_args 5 1 (fst demo_after0)))
             = Ok (st, evb)
             /\ slot (obs (rollouts st)) t = Ok o
             /\ slot (recurrent_hidden_states (rollouts st)) t = Ok h
             /\ slot (masks (rollouts st)) t = Ok m
             /\ nth_error evc (3 * Z.to_nat t)
                = Some (EvAct
                          (columns 0 (Z.to_nat (num_processes demo_args)) o)
                          (columns 0 (Z.to_nat (num_processes demo_args)) h)
                          (columns 0 (Z.to_nat (num_processes demo_args)) m)
                          false))
     /\ (forall j',
           exists s2',
             collection_phase demo_world demo_args
               (fst (decay_phase demo_world demo_args 5 j' (fst demo_after0)))
             = Ok (s2', evc)
             /\ same_data s2 s2'))
  /\ (forall (b : Batch) (i : nat),
        nth_error (columns 0 (Z.to_nat (num_processes demo_args)) b) i
        = if (i <? Z.to_nat (num_processes demo_args))%nat
          then nth_error b i else None)
  /\ (0 < num_rollouts demo_args ->
      (num_processes demo_args | num_rollouts demo_args) ->
      let tiled :=
        concat (repeat (reset_obs demo_world demo_args)
                       (Z.to_nat (num_rollouts demo_args
                                  / num_processes demo_args))) in
      tiled_obs demo_args (reset_obs demo_world demo_args) = Ok tiled
      /\ take (num_rollouts demo_args mod num_processes demo_args)
              (reset_obs demo_world demo_args) = []
      /\ (Z.of_nat (length (reset_obs demo_world demo_args))
          = num_processes demo_args ->
          Z.of_nat (length tiled) = num_rollouts demo_args)
      /\ forall s0 ev0,
           setup demo_world demo_args = Ok (s0, ev0) ->
           slot (obs (rollouts s0)) 0 = Ok tiled).
Proof.
  apply (C10_collection_reads_fixed_window demo_world demo_args 5 20 1
           (fst demo_after0) (fst demo_after1) (snd demo_after1)).
  - simpl. lia.
  - vm_compute. reflexivity.
Defined.

(** ** The demo run as a whole *)

(** The script runs to its end in the demo world: five cycles, updates on
    cycles 0 and 3, a checkpoint on cycle 0 only. *)
Example demo_run_completes :
  match train_single demo_world 40 demo_args with
  | Ok (_, _, log) =>
      map fst log = [0; 1; 2; 3; 4]
      /\ updates_by_cycle log
         = [(0, true); (1, false); (2, false); (3, true); (4, false)]
      /\ map (fun entry => existsb is_save (snd entry)) log
         = [true; false; false; false; false]
  | _ => False
  end.
Proof.
  vm_compute. split; [reflexivity |]. split; reflexivity.
Qed.

(** * Further properties of the driver *)

(** ** Start-up: edge cases *)

Lemma algo_accepted_checks (a : Args) :
  algo_accepted a ->
  str_in (algo a) ["a2c"; "ppo"; "acktr"]%string = true
  /\ (recurrent_policy a = true ->
      str_in (algo a) ["a2c"; "ppo"]%string = true).
Proof.
  intros [H3 H2]. split; [apply str_in_In; exact H3 |].
  intros Hr. apply str_in_In. exact (H2 Hr).
Qed.

Lemma raise_rollouts_diverges (procs : Z) :
  procs <= 0 ->
  forall (fuel : nat) (n : Z),
    n < 30 -> raise_rollouts fuel procs n = Diverge.
Proof.
  intros Hp. induction fuel as [| fuel IH]; intros n Hn; simpl;
    [reflexivity |].
  destruct (Z.ltb_spec n 30) as [_ | C]; [| lia].
  apply IH. lia.
Qed.

(** What the loop of lines 30-31 has done when it returns, whatever the
    worker count. *)
Lemma raise_rollouts_partial (procs : Z) :
  forall (fuel : nat) (n r : Z),
    raise_rollouts fuel procs n = Ok r ->
    30 <= r /\ (procs | r - n)
    /\ (n < 30 -> r - procs < 30) /\ (30 <= n -> r = n).
Proof.
  induction fuel as [| fuel IH]; intros n r H; simpl in H;
    [discriminate |].
  destruct (Z.ltb_spec n 30) as [Hlt | Hge].
  - destruct (IH _ _ H) as [H1 [[c Hc] [H3 H4]]].
    split; [exact H1 |]. split; [exists (c + 1); lia |].
    split; [| lia].
    intros _. destruct (Z.lt_ge_cases (n + procs) 30) as [Hs | Hs].
    + exact (H3 Hs).
    + rewrite (H4 Hs). lia.
  - inversion H. subst r. split; [exact Hge |].
    split; [exists 0; lia |]. split; [lia | reflexivity].
Qed.

(** X1: with [num_rollouts == 0] and no positive worker count, the loop
    of lines 30-31 never ends: a configuration that passes the algorithm
    asserts makes the script hang in start-up, however long it runs. *)
Theorem X1_normalisation_never_ends (a : Args) :
  algo_accepted a -> num_rollouts a = 0 -> num_processes a <= 0 ->
  forall (fuel : nat),
    normalize_num_rollouts fuel a = Diverge
    /\ validate_args fuel a = Diverge
    /\ forall W, train_single W fuel a = Diverge.
Proof.
  intros Hacc Hz Hp fuel.
  destruct (algo_accepted_checks a Hacc) as [E3 E2].
  assert (Hn : normalize_num_rollouts fuel a = Diverge).
  { unfold normalize_num_rollouts. rewrite Hz. simpl.
    rewrite (raise_rollouts_diverges _ Hp fuel 0) by lia. reflexivity. }
  assert (Hv : validate_args fuel a = Diverge).
  { rewrite (validate_args_past_algo fuel a E3 E2), Hn. reflexivity. }
  split; [exact Hn |]. split; [exact Hv |].
  intros W. unfold train_single, startup. rewrite Hv. reflexivity.
Qed.

Lemma X1_normalisation_never_ends_witness :
  normalize_num_rollouts 1000 args_no_workers = Diverge
  /\ validate_args 1000 args_no_workers = Diverge
  /\ forall W, train_single W 1000 args_no_workers = Diverge.
Proof.
  refine (X1_normalisation_never_ends args_no_workers _ _ _ 1000%nat).
  - split; [simpl; auto | intros C; discriminate].
  - reflexivity.
  - simpl. lia.
Defined.

Lemma set_num_rollouts_same (a : Args) :
  set_num_rollouts a (num_rollouts a) = a.
Proof. destruct a. reflexivity. Qed.

Lemma validate_args_inv (fuel : nat) (a a1 : Args) :
  validate_args fuel a = Ok a1 ->
  algo_accepted a
  /\ normalize_num_rollouts fuel a = Ok a1
  /\ (0 < num_rollouts a1 ->
      num_processes a1 <> 0 /\ (num_processes a1 | num_rollouts a1)).
Proof.
  intros H. pose proof (validate_args_normalized _ _ _ H) as Hn.
  unfold validate_args in H.
  apply bind_ok in H. destruct H as [u1 [H3 H]].
  apply bind_ok in H. destruct H as [u2 [H2 H]].
  rewrite Hn in H. simpl in H.
  apply bind_ok in H. destruct H as [u3 [Hd _]].
  split; [| split; [exact Hn |]].
  - split.
    + apply str_in_In. unfold py_assert in H3.
      destruct (str_in (algo a) ["a2c"; "ppo"; "acktr"]%string);
        [reflexivity | discriminate].
    + intros Hr. rewrite Hr in H2. apply str_in_In. unfold py_assert in H2.
      destruct (str_in (algo a) ["a2c"; "ppo"]%string);
        [reflexivity | discriminate].
  - intros Hpos.
    destruct (Z.gtb_spec (num_rollouts a1) 0) as [_ | C]; [| lia].
    apply bind_ok in Hd. destruct Hd as [m [Hm Hd]].
    apply py_mod_inv in Hm. destruct Hm as [Hp Hm]. subst m.
    split; [exact Hp |].
    apply (divisible_check _ _ Hp). unfold py_assert in Hd.
    destruct (num_rollouts a1 mod num_processes a1 =? 0);
      [reflexivity | discriminate].
Qed.

Lemma normalize_inv (fuel : nat) (a a1 : Args) :
  normalize_num_rollouts fuel a = Ok a1 ->
  a1 = set_num_rollouts a (num_rollouts a1)
  /\ (num_rollouts a <> 0 -> a1 = a)
  /\ (num_rollouts a = 0 ->
      raise_rollouts fuel (num_processes a) 0 = Ok (num_rollouts a1)).
Proof.
  unfold normalize_num_rollouts.
  destruct (Z.eqb_spec (num_rollouts a) 0) as [Hz | Hnz]; intros H.
  - apply bind_ok in H. destruct H as [r [Hr H]]. inversion H. subst a1.
    simpl. split; [reflexivity |]. split; [intros C; contradiction |].
    intros _. rewrite Hz in Hr. exact Hr.
  - inversion H. subst a1. split; [symmetry; apply set_num_rollouts_same |].
    split; [reflexivity | intros C; contradiction].
Qed.

Lemma skip_update_safe (a : Args) (j : Z) :
  (0 < num_rollouts a ->
   num_processes a <> 0 /\ (num_processes a | num_rollouts a)) ->
  skip_update a j = Ok (negb (sub_window a j =? 0))
  \/ (num_rollouts a <= 0 /\ skip_update a j = Ok false).
Proof.
  intros Hinv. unfold skip_update, sub_window.
  destruct (Z.gtb_spec (num_rollouts a) 0) as [Hpos | Hle].
  - left. destruct (Hinv Hpos) as [Hp [c Hc]].
    rewrite (py_floordiv_ok _ _ Hp). simpl.
    assert (Hq : num_rollouts a / num_processes a = c).
    { rewrite Hc. apply Z.div_mul. exact Hp. }
    rewrite Hq. rewrite py_mod_ok by nia. reflexivity.
  - right. auto.
Qed.

(** X2: what main can rely on once the checks of lines 23-33 have
    passed: the algorithm is one of the three (one of a2c/ppo for a
    recurrent policy), only [num_rollouts] may have changed, it is never 0
    any more, a positive [num_rollouts] is a multiple of a non-zero
    [num_processes], and so the gate of line 160 never divides by zero. *)
Theorem X2_validated_arguments (fuel : nat) (a a1 : Args) :
  validate_args fuel a = Ok a1 ->
  algo_accepted a1
  /\ a1 = set_num_rollouts a (num_rollouts a1)
  /\ (num_rollouts a <> 0 -> a1 = a)
  /\ num_rollouts a1 <> 0
  /\ (0 < num_rollouts a1 ->
      num_processes a1 <> 0 /\ (num_processes a1 | num_rollouts a1)
      /\ period a1 <> 0)
  /\ forall j, exists skip, skip_update a1 j = Ok skip.
Proof.
  intros H.
  destruct (validate_args_inv _ _ _ H) as [Hacc [Hn Hdiv]].
  destruct (normalize_inv _ _ _ Hn) as [Hset [Hsame Hzero]].
  split; [rewrite Hset; exact Hacc |].
  split; [exact Hset |]. split; [exact Hsame |].
  split; [| split].
  - destruct (Z.eq_dec (num_rollouts a) 0) as [Hz | Hnz].
    + apply raise_rollouts_partial in Hzero; [| exact Hz].
      destruct Hzero as [Hge _]. lia.
    + rewrite (Hsame Hnz). exact Hnz.
  - intros Hpos. destruct (Hdiv Hpos) as [Hp Hd].
    split; [exact Hp |]. split; [exact Hd |].
    unfold period. destruct Hd as [c Hc]. rewrite Hc.
    rewrite Z.div_mul by exact Hp. nia.
  - intros j. destruct (skip_update_safe a1 j Hdiv) as [E | [_ E]];
      eexists; exact E.
Qed.

Lemma X2_validated_arguments_witness :
  algo_accepted args_16_effective
  /\ args_16_effective
     = set_num_rollouts args_16 (num_rollouts args_16_effective)
  /\ (num_rollouts args_16 <> 0 -> args_16_effective = args_16)
  /\ num_rollouts args_16_effective <> 0
  /\ (0 < num_rollouts args_16_effective ->
      num_processes args_16_effective <> 0
      /\ (num_processes args_16_effective | num_rollouts args_16_effective)
      /\ period args_16_effective <> 0)
  /\ forall j, exists skip, skip_update args_16_effective j = Ok skip.
Proof.
  apply (X2_validated_arguments 31 args_16 args_16_effective).
  vm_compute. reflexivity.
Defined.

(** X3: a zero divisor stops start-up with [ZeroDivisionError]: with a
    non-zero [num_rollouts] and accepted algorithm, [num_processes == 0]
    fails the script at line 33 or 35, and [num_steps == 0] fails it at
    line 35 when the divisibility check passes; [main] is never entered. *)
Theorem X3_zero_divisor_at_startup (fuel : nat) (a : Args) :
  algo_accepted a -> num_rollouts a <> 0 ->
  num_processes a = 0
  \/ (num_steps a = 0
      /\ (0 < num_rollouts a -> (num_processes a | num_rollouts a))) ->
  startup fuel a = Raise ZeroDivisionError
  /\ forall W, train_single W fuel a = Raise ZeroDivisionError.
Proof.
  intros Hacc Hnz Hcase.
  destruct (algo_accepted_checks a Hacc) as [E3 E2].
  assert (Hc : compute_num_updates a = Raise ZeroDivisionError).
  { unfold compute_num_updates, py_floordiv.
    destruct (Z.eqb_spec (num_steps a) 0) as [Hs0 | Hs0];
      [reflexivity |].
    simpl. destruct (Z.eqb_spec (num_processes a) 0) as [Hp0 | Hp0];
      [reflexivity |].
    destruct Hcase as [C | [C _]]; contradiction. }
  assert (Hs : startup fuel a = Raise ZeroDivisionError).
  { unfold startup. rewrite (validate_args_past_algo fuel a E3 E2).
    unfold normalize_num_rollouts.
    destruct (Z.eqb_spec (num_rollouts a) 0) as [C | _]; [contradiction |].
    simpl.
    destruct (Z.gtb_spec (num_rollouts a) 0) as [Hpos | Hle]; simpl.
    - unfold py_mod.
      destruct (Z.eqb_spec (num_processes a) 0) as [Hp0 | Hp0];
        [reflexivity |].
      simpl.
      assert (Hm : (num_rollouts a mod num_processes a =? 0) = true).
      { apply (divisible_check _ _ Hp0).
        destruct Hcase as [C | [_ Hd]]; [contradiction | exact (Hd Hpos)]. }
      rewrite Hm. simpl. rewrite Hc. reflexivity.
    - rewrite Hc. reflexivity. }
  split; [exact Hs |].
  intros W. unfold train_single. rewrite Hs. reflexivity.
Qed.

Lemma X3_zero_divisor_at_startup_witness :
  startup 31 args_zero_divisor = Raise ZeroDivisionError
  /\ forall W, train_single W 31 args_zero_divisor = Raise ZeroDivisionError.
Proof.
  apply (X3_zero_divisor_at_startup 31 args_zero_divisor).
  - split; [simpl; auto | intros C; discriminate].
  - simpl. lia.
  - left. reflexivity.
Defined.



(** ** The scheduler over a run *)

Lemma existsb_is_update (ev : list Event) :
  existsb is_update ev = true <-> update_fired ev.
Proof.
  rewrite existsb_exists. unfold update_fired. split.
  - intros [e [Hin He]]. destruct e; try discriminate.
    eexists. eexists. exact Hin.
  - intros [l [c Hin]]. exists (EvUpdate l c). split; [exact Hin | reflexivity].
Qed.

Lemma continue_only_when_skipped (W : World) (a : Args) (n : Z) (fuel : nat)
  (j : Z) (s s' : State W) (ev : list Event) :
  cycle W a n fuel j s = Ok (s', ev) ->
  In EvContinue ev -> skip_update a j = Ok true.
Proof.
  intros H Hin.
  pose proof (cycle_inv _ _ _ _ _ _ _ _ H)
    as [s2 [evc [_ [_ [_ [_ [[Hskip _] | [Hskip _]]]]]]]];
    [exact Hskip |].
  exfalso.
  destruct (cycle_event_kinds _ _ _ _ _ _ _ _ H _ Hin)
    as [K | [K | [K | [K | [K | [[t K] | [K | K]]]]]]];
    try (simpl in K; contradiction); try discriminate.
  - pose proof (proj2 (update_fired_iff _ _ _ _ _ _ _ _ H) Hskip)
      as [l [c Hu]].
    clear K.
    apply cycle_inv in H.
    destruct H as [s3 [evc' [_ [Fc [_ [_ Hcases]]]]]].
    pose proof (decay_phase_events W a n j s) as Fd.
    destruct Hcases as [[C _] | [_ [rest [Hp E]]]]; [congruence |].
    destruct Hp as [evs evl eve evv _ Hs Hl He Hv Er]. subst rest ev.
    apply save_phase_inv in Hs. destruct Hs as [_ Hs].
    apply log_phase_inv in Hl.
    apply eval_phase_events in He.
    apply vis_phase_inv in Hv.
    apply in_app_or in Hin. destruct Hin as [Hin | Hin].
    { exact (In_class _ _ _ Fd Hin). }
    apply in_app_or in Hin. destruct Hin as [Hin | Hin].
    { exact (In_class _ _ _ Fc Hin). }
    apply in_app_or in Hin. destruct Hin as [Hin | Hin].
    { simpl in Hin. destruct Hin as [C | [C | [C | [C | C]]]];
        try discriminate; contradiction. }
    apply in_app_or in Hin. destruct Hin as [Hin | Hin].
    { destruct Hs as [[E _] | [E _]]; subst evs; simpl in Hin;
        [destruct Hin as [C | C]; [discriminate | contradiction]
        | contradiction]. }
    apply in_app_or in Hin. destruct Hin as [Hin | Hin].
    { destruct Hl as [E | [t E]]; subst evl; simpl in Hin;
        [contradiction
        | destruct Hin as [C | C]; [discriminate | contradiction]]. }
    apply in_app_or in Hin. destruct Hin as [Hin | Hin].
    { exact (In_class _ _ _ He Hin). }
    destruct Hv as [E | E]; subst evv; simpl in Hin;
      [contradiction
      | destruct Hin as [C | C]; [discriminate | contradiction]].
  - simpl in K. destruct K as [C | [C | [C | [C | C]]]];
      try discriminate; contradiction.
Qed.

(** X5: with a non-positive [num_rollouts], or a storage exactly as wide
    as the workers ([num_rollouts == num_processes]), the gate of line 160
    never skips: every cycle that completes runs the update and none takes
    the [continue]. *)
Theorem X5_no_batching_updates_every_cycle (W : World) (a : Args) (n : Z)
  (fuel : nat) (j : Z) (s s' : State W) (ev : list Event) :
  num_rollouts a <= 0
  \/ (num_rollouts a = num_processes a /\ num_processes a <> 0) ->
  cycle W a n fuel j s = Ok (s', ev) ->
  skip_update a j = Ok false /\ update_fired ev /\ ~ In EvContinue ev.
Proof.
  intros Hcase H.
  assert (Hskip : skip_update a j = Ok false).
  { unfold skip_update.
    destruct (Z.gtb_spec (num_rollouts a) 0) as [Hpos | Hle];
      [| reflexivity].
    destruct Hcase as [C | [E Hp]]; [lia |].
    rewrite (py_floordiv_ok _ _ Hp). simpl.
    rewrite E, Z.div_same by exact Hp.
    rewrite py_mod_ok by lia. simpl. rewrite Z.mod_1_r. reflexivity. }
  split; [exact Hskip |]. split.
  - apply (update_fired_iff _ _ _ _ _ _ _ _ H). exact Hskip.
  - intros Hin.
    pose proof (continue_only_when_skipped _ _ _ _ _ _ _ _ H Hin).
    congruence.
Qed.

Lemma X5_no_batching_updates_every_cycle_witness :
  skip_update args_full_width 1 = Ok false
  /\ update_fired (snd full_width_cycle1)
  /\ ~ In EvContinue (snd full_width_cycle1).
Proof.
  apply (X5_no_batching_updates_every_cycle demo_world args_full_width 5 20 1
           (fst demo_setup) (fst full_width_cycle1) (snd full_width_cycle1)).
  - right. split; [reflexivity | simpl; lia].
  - vm_compute. reflexivity.
Defined.

(** X6: what leaving [num_rollouts] at 0 does to the schedule.  When the
    checks pass there is at least one worker; with fewer than 30 workers
    the effective period is at least 2 and cycle 1 is collection-only,
    while with 30 workers or more [num_rollouts] becomes [num_processes]
    and no cycle is skipped. *)
Theorem X6_default_rollouts_schedule (fuel : nat) (a a1 : Args) :
  num_rollouts a = 0 -> validate_args fuel a = Ok a1 ->
  1 <= num_processes a1
  /\ (num_processes a1 < 30 ->
      2 <= period a1 /\ skip_update a1 1 = Ok true)
  /\ (30 <= num_processes a1 ->
      num_rollouts a1 = num_processes a1
      /\ forall j, skip_update a1 j = Ok false).
Proof.
  intros Hz H.
  destruct (validate_args_inv _ _ _ H) as [_ [Hn _]].
  destruct (normalize_inv _ _ _ Hn) as [Hset [_ Hzero]].
  specialize (Hzero Hz).
  apply raise_rollouts_partial in Hzero.
  destruct Hzero as [Hge [[c Hc] [Hlt _]]].
  specialize (Hlt ltac:(lia)). rewrite Z.sub_0_r in Hc.
  assert (Hp : num_processes a1 = num_processes a)
    by (rewrite Hset; reflexivity).
  rewrite Hp.
  remember (num_processes a) as p eqn:Ep.
  remember (num_rollouts a1) as r eqn:Er.
  assert (Hpos : 1 <= p) by lia.
  assert (Hq : r / p = c) by (rewrite Hc; apply Z.div_mul; lia).
  split; [exact Hpos |]. split.
  - intros Hsmall.
    assert (Hc2 : 2 <= c) by nia.
    split; [unfold period; rewrite <- Er, Hp, Hq; exact Hc2 |].
    unfold skip_update. rewrite <- Er, Hp.
    destruct (Z.gtb_spec r 0) as [_ | C]; [| lia].
    rewrite py_floordiv_ok by lia. simpl. rewrite Hq.
    rewrite py_mod_ok by lia. simpl.
    rewrite Z.mod_small by lia. reflexivity.
  - intros Hbig.
    assert (Hc1 : c = 1) by nia.
    split; [lia |].
    intros j. unfold skip_update. rewrite <- Er, Hp.
    destruct (Z.gtb_spec r 0) as [_ | C]; [| lia].
    rewrite py_floordiv_ok by lia. simpl. rewrite Hq, Hc1.
    rewrite py_mod_ok by lia. simpl. rewrite Z.mod_1_r. reflexivity.
Qed.

Lemma X6_default_rollouts_schedule_witness :
  1 <= num_processes args_16_effective
  /\ (num_processes args_16_effective < 30 ->
      2 <= period args_16_effective
      /\ skip_update args_16_effective 1 = Ok true)
  /\ (30 <= num_processes args_16_effective ->
      num_rollouts args_16_effective = num_processes args_16_effective
      /\ forall j, skip_update args_16_effective j = Ok false).
Proof.
  apply (X6_default_rollouts_schedule 31 args_16 args_16_effective).
  - reflexivity.
  - vm_compute. reflexivity.
Defined.

Lemma div_between (x p k : Z) :
  0 < p -> k * p <= x < (k + 1) * p -> x / p = k.
Proof.
  intros Hp Hb. symmetry.
  apply (Z.div_unique x p k (x - k * p)); [left; lia | lia].
Qed.

Lemma ceil_step (m p : Z) :
  0 <= m -> 0 < p ->
  (m + 1 + p - 1) / p
  = (m + p - 1) / p + (if m mod p =? 0 then 1 else 0).
Proof.
  intros Hm Hp.
  pose proof (Z.div_mod m p ltac:(lia)) as Hdm.
  pose proof (Z.mod_pos_bound m p Hp) as Hr.
  remember (m / p) as q. remember (m mod p) as r.
  destruct (Z.eqb_spec r 0) as [E | E].
  - rewrite (div_between (m + 1 + p - 1) p (q + 1)) by nia.
    rewrite (div_between (m + p - 1) p q) by nia. lia.
  - rewrite (div_between (m + 1 + p - 1) p (q + 1)) by nia.
    rewrite (div_between (m + p - 1) p (q + 1)) by nia. lia.
Qed.

Lemma count_window_zero (p : Z) (Hp : 0 < p) :
  forall m : nat,
    Z.of_nat (length (filter (fun j => j mod p =? 0)
                             (map Z.of_nat (seq 0 m))))
    = (Z.of_nat m + p - 1) / p.
Proof.
  induction m as [| m IH].
  - simpl. rewrite Z.div_small by lia. reflexivity.
  - rewrite seq_S, map_app, filter_app, length_app, Nat2Z.inj_add, IH.
    replace (Z.of_nat (S m) + p - 1) with (Z.of_nat m + 1 + p - 1) by lia.
    rewrite (ceil_step (Z.of_nat m) p) by lia.
    change (map Z.of_nat [(0 + m)%nat]) with [Z.of_nat m].
    cbn [filter].
    destruct (Z.of_nat m mod p =? 0); cbn [length]; lia.
Qed.

Lemma run_cycles_updates (W : World) (a : Args) (n : Z) (fuel : nat) :
  0 < num_rollouts a -> 1 <= num_processes a ->
  (num_processes a | num_rollouts a) ->
  forall (js : list Z) (s s' : State W) (log : list (Z * list Event)),
    run_cycles W a n fuel js s = Ok (s', log) ->
    updates_by_cycle log = map (fun j => (j, j mod period a =? 0)) js.
Proof.
  intros Hr Hp Hd.
  induction js as [| j js IH]; intros s s' log H; simpl in H.
  - inversion H. reflexivity.
  - apply bind_ok in H. destruct H as [[s1 ev] [Hc H]]. simpl in H.
    apply bind_ok in H. destruct H as [[s2 log'] [Hrest H]]. simpl in H.
    inversion H. subst s' log. unfold updates_by_cycle. simpl.
    fold (updates_by_cycle log'). rewrite (IH _ _ _ Hrest). f_equal.
    f_equal.
    pose proof (update_fires_on_window_zero _ _ _ _ _ _ _ _ Hr Hp Hd Hc)
      as Hiff.
    unfold sub_window in Hiff. fold (period a) in Hiff.
    destruct (existsb is_update ev) eqn:Eu;
      destruct (Z.eqb_spec (j mod period a) 0) as [E | E];
      try reflexivity.
    + exfalso. apply E, Hiff, existsb_is_update. exact Eu.
    + pose proof (proj2 (existsb_is_update ev) (proj2 Hiff E)). congruence.
Qed.

(** X7: how many updates a run gets.  With [num_rollouts > 0] divisible by
    [num_processes], a run of [num_updates] cycles that completes performs
    the update on the cycles whose index is a multiple of the period, that
    is [ceil(num_updates / period)] times, where the period is
    [num_rollouts // num_processes]. *)
Theorem X7_updates_in_a_run (W : World) (a : Args) (n : Z) (fuel : nat)
  (s : State W) (ev0 : list Event) (log : list (Z * list Event)) :
  0 < num_rollouts a -> 1 <= num_processes a ->
  (num_processes a | num_rollouts a) -> 0 <= n ->
  main W a n fuel = Ok (s, ev0, log) ->
  updates_by_cycle log
  = map (fun j => (j, j mod period a =? 0)) (py_range n)
  /\ Z.of_nat (length (filter snd (updates_by_cycle log)))
     = (n + period a - 1) / period a.
Proof.
  intros Hr Hp Hd Hn H. unfold main in H.
  apply bind_ok in H. destruct H as [[s0 e0] [_ H]]. simpl in H.
  apply bind_ok in H. destruct H as [[s1 log1] [Hrun H]]. simpl in H.
  inversion H. subst s1 e0 log1. clear H.
  pose proof (run_cycles_updates W a n fuel Hr Hp Hd _ _ _ _ Hrun) as Hu.
  split; [exact Hu |].
  rewrite Hu.
  assert (Hper : 0 < period a).
  { unfold period. destruct Hd as [c Hc]. rewrite Hc.
    rewrite Z.div_mul by lia. nia. }
  assert (Hf : forall l : list Z,
             length (filter snd (map (fun j => (j, j mod period a =? 0)) l))
             = length (filter (fun j => j mod period a =? 0) l)).
  { induction l as [| x l IHl]; simpl; [reflexivity |].
    destruct (x mod period a =? 0); simpl; rewrite IHl; reflexivity. }
  rewrite Hf. unfold py_range.
  rewrite (count_window_zero (period a) Hper). rewrite Z2Nat.id by lia.
  reflexivity.
Qed.

Lemma X7_updates_in_a_run_witness :
  updates_by_cycle (snd demo_run)
  = map (fun j => (j, j mod period demo_args =? 0)) (py_range 5)
  /\ Z.of_nat (length (filter snd (updates_by_cycle (snd demo_run))))
     = (5 + period demo_args - 1) / period demo_args.
Proof.
  apply (X7_updates_in_a_run demo_world demo_args 5 20
           (fst (fst demo_run)) (snd (fst demo_run)) (snd demo_run)).
  - simpl. lia.
  - simpl. lia.
  - exists 3. reflexivity.
  - lia.
  - vm_compute. reflexivity.
Defined.

(** ** Storage inserts and the episode log over a run *)

Lemma count_events_app (f : Event -> bool) (l1 l2 : list Event) :
  count_events f (l1 ++ l2) = (count_events f l1 + count_events f l2)%nat.
Proof. unfold count_events. rewrite filter_app, length_app. reflexivity. Qed.

Lemma count_events_none (f : Event -> bool) (P : Event -> Prop)
  (l : list Event) :
  (forall e, P e -> f e = false) -> Forall P l -> count_events f l = 0%nat.
Proof.
  intros Hf F. unfold count_events.
  induction F as [| e l He _ IH]; simpl; [reflexivity |].
  rewrite (Hf e He). exact IH.
Qed.

Lemma collect_steps_inserts (W : World) (a : Args) (steps : list Z) :
  forall (s s' : State W) (ev : list Event),
    collect_steps W a steps s = Ok (s', ev) ->
    count_events is_insert ev = length steps.
Proof.
  induction steps as [| step steps IH]; intros s s' ev H; simpl in H.
  - inversion H. reflexivity.
  - apply bind_ok in H. destruct H as [[s1 ev1] [H1 H]]. simpl in H.
    apply bind_ok in H. destruct H as [[s2 ev2] [H2 H]]. simpl in H.
    inversion H. subst s' ev. clear H.
    apply collect_step_inv in H1.
    destruct H1 as [o [h [m [_ [_ [_ [[action E] _]]]]]]]. subst ev1.
    rewrite count_events_app, (IH _ _ _ H2). reflexivity.
Qed.

Lemma cycle_inserts (W : World) (a : Args) (n : Z) (fuel : nat) (j : Z)
  (s s' : State W) (ev : list Event) :
  cycle W a n fuel j s = Ok (s', ev) ->
  count_events is_insert ev = length (py_range (num_steps a)).
Proof.
  intros H. apply cycle_inv in H.
  destruct H as [s2 [evc [Hc [_ [_ [_ Hcases]]]]]].
  pose proof (decay_phase_events W a n j s) as Fd.
  assert (Hd : count_events is_insert (snd (decay_phase W a n j s)) = 0%nat).
  { apply (count_events_none _ decay_event); [| exact Fd].
    intros e He. destruct e; simpl in He; try contradiction; reflexivity. }
  unfold collection_phase in Hc.
  pose proof (collect_steps_inserts _ _ _ _ _ _ Hc) as Hi.
  destruct Hcases as [[_ [_ E]] | [_ [rest [Hp E]]]]; subst ev.
  - rewrite !count_events_app, Hd, Hi.
    change (count_events is_insert [EvContinue]) with 0%nat. lia.
  - destruct Hp as [evs evl eve evv _ Hs Hl He Hv Er]. subst rest.
    apply save_phase_inv in Hs. destruct Hs as [_ Hs].
    apply log_phase_inv in Hl.
    apply eval_phase_events in He.
    apply vis_phase_inv in Hv.
    assert (H1 : count_events is_insert evs = 0%nat)
      by (destruct Hs as [[E _] | [E _]]; subst evs; reflexivity).
    assert (H2 : count_events is_insert evl = 0%nat)
      by (destruct Hl as [E | [t E]]; subst evl; reflexivity).
    assert (H3 : count_events is_insert eve = 0%nat).
    { apply (count_events_none _ eval_event); [| exact He].
      intros e Hev. destruct e; simpl in Hev; try contradiction;
        reflexivity. }
    assert (H4 : count_events is_insert evv = 0%nat)
      by (destruct Hv as [E | E]; subst evv; reflexivity).
    rewrite !count_events_app, Hd, Hi, H1, H2, H3, H4.
    change (count_events is_insert
              [EvGetValue; EvComputeReturns;
               EvUpdate (cur_lr s2) (cur_clip s2); EvAfterUpdate])
      with 0%nat.
    lia.
Qed.

(** Every entry of the run's record is the outcome of one cycle. *)
Lemma run_cycles_entries (W : World) (a : Args) (n : Z) (fuel : nat) :
  forall (js : list Z) (s s' : State W) (log : list (Z * list Event)),
    run_cycles W a n fuel js s = Ok (s', log) ->
    forall j ev, In (j, ev) log ->
      exists s1 s2, cycle W a n fuel j s1 = Ok (s2, ev).
Proof.
  induction js as [| j0 js IH]; intros s s' log H j ev Hin; simpl in H.
  - inversion H. subst. contradiction.
  - apply bind_ok in H. destruct H as [[s1 ev1] [Hc H]]. simpl in H.
    apply bind_ok in H. destruct H as [[s2 log'] [Hrest H]]. simpl in H.
    inversion H. subst s' log. simpl in Hin.
    destruct Hin as [E | Hin].
    + inversion E. subst. exists s, s1. exact Hc.
    + exact (IH _ _ _ Hrest _ _ Hin).
Qed.

Lemma run_cycles_inserts (W : World) (a : Args) (n : Z) (fuel : nat) :
  forall (js : list Z) (s s' : State W) (log : list (Z * list Event)),
    run_cycles W a n fuel js s = Ok (s', log) ->
    count_events is_insert (steps_of_run log)
    = (length js * length (py_range (num_steps a)))%nat.
Proof.
  induction js as [| j js IH]; intros s s' log H; simpl in H.
  - inversion H. reflexivity.
  - apply bind_ok in H. destruct H as [[s1 ev1] [Hc H]]. simpl in H.
    apply bind_ok in H. destruct H as [[s2 log'] [Hrest H]]. simpl in H.
    inversion H. subst s' log. unfold steps_of_run. simpl.
    fold (steps_of_run log').
    rewrite count_events_app, (cycle_inserts _ _ _ _ _ _ _ _ Hc),
      (IH _ _ _ Hrest). reflexivity.
Qed.

Lemma main_run (W : World) (a : Args) (n : Z) (fuel : nat) (s : State W)
  (ev0 : list Event) (log : list (Z * list Event)) :
  main W a n fuel = Ok (s, ev0, log) ->
  exists s0,
    setup W a = Ok (s0, ev0)
    /\ run_cycles W a n fuel (py_range n) s0 = Ok (s, log).
Proof.
  unfold main. intros H.
  apply bind_ok in H. destruct H as [[s0 e0] [Hs H]]. simpl in H.
  apply bind_ok in H. destruct H as [[s1 log1] [Hrun H]]. simpl in H.
  inversion H. subst. exists s0. auto.
Qed.

(** X8: every cycle of a completed run, skipped by the gate or not, puts
    exactly [num_steps] transitions into the storage, so the run makes
    [num_updates * num_steps] inserts in all; none happens outside the
    collection loop. *)
Theorem X8_inserts_per_cycle_and_run (W : World) (a : Args) (n : Z)
  (fuel : nat) (s : State W) (ev0 : list Event)
  (log : list (Z * list Event)) :
  0 <= num_steps a -> 0 <= n ->
  main W a n fuel = Ok (s, ev0, log) ->
  (forall j ev, In (j, ev) log ->
                Z.of_nat (count_events is_insert ev) = num_steps a)
  /\ Z.of_nat (count_events is_insert (steps_of_run log))
     = n * num_steps a
  /\ count_events is_insert ev0 = 0%nat.
Proof.
  intros Hs Hn H.
  destruct (main_run _ _ _ _ _ _ _ H) as [s0 [Hsetup Hrun]].
  split; [| split].
  - intros j ev Hin.
    destruct (run_cycles_entries _ _ _ _ _ _ _ _ Hrun _ _ Hin)
      as [s1 [s2 Hc]].
    rewrite (cycle_inserts _ _ _ _ _ _ _ _ Hc). apply py_range_length.
    exact Hs.
  - rewrite (run_cycles_inserts _ _ _ _ _ _ _ _ Hrun).
    rewrite Nat2Z.inj_mul, !py_range_length by assumption. reflexivity.
  - unfold setup in Hsetup.
    destruct (setup_policy W a) as [policy envs1].
    destruct (env_reset W envs1) as [envs2 ob].
    apply bind_ok in Hsetup. destruct Hsetup as [first [_ Hsetup]].
    apply bind_ok in Hsetup. destruct Hsetup as [obs' [_ Hsetup]].
    inversion Hsetup. reflexivity.
Qed.

Lemma X8_inserts_per_cycle_and_run_witness :
  (forall j ev, In (j, ev) (snd demo_run) ->
                Z.of_nat (count_events is_insert ev) = num_steps demo_args)
  /\ Z.of_nat (count_events is_insert (steps_of_run (snd demo_run)))
     = 5 * num_steps demo_args
  /\ count_events is_insert (snd (fst demo_run)) = 0%nat.
Proof.
  apply (X8_inserts_per_cycle_and_run demo_world demo_args 5 20
           (fst (fst demo_run)) (snd (fst demo_run)) (snd demo_run)).
  - simpl. lia.
  - lia.
  - vm_compute. reflexivity.
Defined.

Lemma deque_len_positive (a : Args) : 1 <= deque_len a.
Proof.
  unfold deque_len. destruct (Z.gtb_spec (num_rollouts a) 0); [lia |].
  destruct (Z.gtb_spec (num_processes a) 10); lia.
Qed.

Lemma collect_step_log (W : World) (a : Args) (step : Z) (s s' : State W)
  (ev : list Event) :
  collect_step W a step s = Ok (s', ev) ->
  exists action,
    In (EvStep action) ev
    /\ episode_rewards s'
       = fold_left deque_append
                   (finished_returns (step_infos W (envs s) action))
                   (episode_rewards s).
Proof.
  unfold collect_step, step_infos. intros H.
  apply bind_ok in H. destruct H as [o [_ H]].
  apply bind_ok in H. destruct H as [h [_ H]].
  apply bind_ok in H. destruct H as [m [_ H]].
  destruct (act W _ _ _ _ _) as [[[value action] logp] hidden].
  exists action.
  destruct (env_step W (envs s) action)
    as [envs' [[[ob reward] done] infos]].
  inversion H. subst. simpl. auto.
Qed.

Lemma collect_steps_log (W : World) (a : Args) (steps : list Z) :
  forall (s s' : State W) (ev : list Event),
    collect_steps W a steps s = Ok (s', ev) ->
    0 <= maxlen (episode_rewards s) ->
    deque_size (episode_rewards s) <= maxlen (episode_rewards s) ->
    maxlen (episode_rewards s') = maxlen (episode_rewards s)
    /\ deque_size (episode_rewards s') <= maxlen (episode_rewards s').
Proof.
  induction steps as [| step steps IH]; intros s s' ev H Hm Hs; simpl in H.
  - inversion H. subst. auto.
  - apply bind_ok in H. destruct H as [[s1 ev1] [H1 H]]. simpl in H.
    apply bind_ok in H. destruct H as [[s2 ev2] [H2 H]]. simpl in H.
    inversion H. subst s' ev. clear H.
    destruct (collect_step_log _ _ _ _ _ _ H1) as [action [_ E]].
    destruct (deque_appends_bounded
                (finished_returns (step_infos W (envs s) action))
                (episode_rewards s) Hm Hs) as [M1 S1].
    rewrite <- E in M1, S1.
    destruct (IH _ _ _ H2) as [M2 S2]; [lia | lia |].
    split; [congruence | exact S2].
Qed.

Lemma cycle_log (W : World) (a : Args) (n : Z) (fuel : nat) (j : Z)
  (s s' : State W) (ev : list Event) :
  cycle W a n fuel j s = Ok (s', ev) ->
  0 <= maxlen (episode_rewards s) ->
  deque_size (episode_rewards s) <= maxlen (episode_rewards s) ->
  maxlen (episode_rewards s') = maxlen (episode_rewards s)
  /\ deque_size (episode_rewards s') <= maxlen (episode_rewards s').
Proof.
  intros H Hm Hs. apply cycle_inv in H.
  destruct H as [s2 [evc [Hc [_ [_ [_ Hcases]]]]]].
  destruct (decay_phase_rest W a n j s) as [_ [_ [_ Hl]]].
  unfold collection_phase in Hc.
  destruct (collect_steps_log _ _ _ _ _ _ Hc) as [M S];
    [rewrite Hl; exact Hm | rewrite Hl; exact Hs |].
  rewrite Hl in M.
  destruct Hcases as [[_ [E _]] | [_ [rest [Hp _]]]].
  - subst s'. split; assumption.
  - destruct Hp as [evs evl eve evv Hu _ _ _ _ _].
    apply update_phase_inv in Hu. destruct Hu as [_ [_ [_ [El _]]]].
    rewrite El. split; assumption.
Qed.

Lemma run_cycles_log (W : World) (a : Args) (n : Z) (fuel : nat) :
  forall (js : list Z) (s s' : State W) (log : list (Z * list Event)),
    run_cycles W a n fuel js s = Ok (s', log) ->
    0 <= maxlen (episode_rewards s) ->
    deque_size (episode_rewards s) <= maxlen (episode_rewards s) ->
    maxlen (episode_rewards s') = maxlen (episode_rewards s)
    /\ deque_size (episode_rewards s') <= maxlen (episode_rewards s').
Proof.
  induction js as [| j js IH]; intros s s' log H Hm Hs; simpl in H.
  - inversion H. subst. auto.
  - apply bind_ok in H. destruct H as [[s1 ev1] [Hc H]]. simpl in H.
    apply bind_ok in H. destruct H as [[s2 log'] [Hrest H]]. simpl in H.
    inversion H. subst s' log.
    destruct (cycle_log _ _ _ _ _ _ _ _ Hc Hm Hs) as [M1 S1].
    destruct (IH _ _ _ Hrest) as [M2 S2]; [lia | lia |].
    split; [congruence | exact S2].
Qed.

(** X9: the episode log keeps its bound through a whole run: when [main]
    returns, the log still has the capacity it was built with at line 122
    (at least 1) and holds no more returns than that. *)
Theorem X9_episode_log_stays_bounded (W : World) (a : Args) (n : Z)
  (fuel : nat) (s : State W) (ev0 : list Event)
  (log : list (Z * list Event)) :
  main W a n fuel = Ok (s, ev0, log) ->
  maxlen (episode_rewards s) = deque_len a
  /\ 1 <= deque_len a
  /\ 0 <= deque_size (episode_rewards s) <= deque_len a.
Proof.
  intros H.
  destruct (main_run _ _ _ _ _ _ _ H) as [s0 [Hsetup Hrun]].
  pose proof (setup_episode_rewards _ _ _ _ Hsetup) as E0.
  pose proof (deque_len_positive a) as Hpos.
  destruct (run_cycles_log _ _ _ _ _ _ _ _ Hrun) as [M S].
  - rewrite E0. simpl. lia.
  - rewrite E0. unfold deque_size. simpl. lia.
  - rewrite E0 in M. simpl in M. rewrite M in S.
    split; [exact M |]. split; [exact Hpos |].
    split; [unfold deque_size; lia | exact S].
Qed.

Lemma X9_episode_log_stays_bounded_witness :
  maxlen (episode_rewards (fst (fst demo_run))) = deque_len demo_args
  /\ 1 <= deque_len demo_args
  /\ 0 <= deque_size (episode_rewards (fst (fst demo_run)))
     <= deque_len demo_args.
Proof.
  apply (X9_episode_log_stays_bounded demo_world demo_args 5 20
           (fst (fst demo_run)) (snd (fst demo_run)) (snd demo_run)).
  vm_compute. reflexivity.
Defined.

Lemma keep_last_extend {A : Type} (m : Z) (l xs : list A) :
  keep_last m (keep_last m l ++ xs) = keep_last m (l ++ xs).
Proof.
  unfold keep_last.
  rewrite !skipn_app, skipn_skipn, !length_app, !length_skipn.
  f_equal; f_equal; lia.
Qed.

Lemma keep_last_short {A : Type} (m : Z) (l : list A) :
  Z.of_nat (length l) <= m -> keep_last m l = l.
Proof.
  intros H. unfold keep_last.
  replace (length l - Z.to_nat m)%nat with 0%nat by lia. reflexivity.
Qed.

Lemma deque_append_keep_last (d : Deque) (x : Q) :
  items (deque_append d x) = keep_last (maxlen d) (items d ++ [x]).
Proof. reflexivity. Qed.

Lemma deque_fold_keep_last (xs : list Q) :
  forall d : Deque,
    deque_size d <= maxlen d ->
    items (fold_left deque_append xs d)
    = keep_last (maxlen d) (items d ++ xs)
    /\ maxlen (fold_left deque_append xs d) = maxlen d.
Proof.
  induction xs as [| x xs IH]; intros d Hs; simpl.
  - rewrite app_nil_r. split; [| reflexivity].
    symmetry. apply keep_last_short. exact Hs.
  - assert (Hs' : deque_size (deque_append d x) <= maxlen (deque_append d x)).
    { rewrite deque_append_maxlen. apply deque_append_size.
      pose proof (Nat2Z.is_nonneg (length (items d))).
      unfold deque_size in Hs. lia. }
    destruct (IH (deque_append d x) Hs') as [E M].
    rewrite E, M, deque_append_maxlen, deque_append_keep_last.
    split; [| reflexivity].
    rewrite keep_last_extend, <- app_assoc. reflexivity.
Qed.

(** X10: what a collection step does to the episode log (lines 151-153):
    the returns of the episodes that ended in this step are appended in
    worker order and the log then holds the most recent [maxlen] returns,
    the oldest ones having been dropped; the capacity does not change. *)
Theorem X10_log_keeps_most_recent (W : World) (a : Args) (step : Z)
  (s s' : State W) (ev : list Event) :
  deque_size (episode_rewards s) <= maxlen (episode_rewards s) ->
  collect_step W a step s = Ok (s', ev) ->
  exists action dropped,
    In (EvStep action) ev
    /\ items (episode_rewards s) ++
       finished_returns (step_infos W (envs s) action)
       = dropped ++ items (episode_rewards s')
    /\ Z.of_nat (length (items (episode_rewards s')))
       = Z.min (maxlen (episode_rewards s))
               (Z.of_nat (length (items (episode_rewards s) ++
                                  finished_returns
                                    (step_infos W (envs s) action))))
    /\ maxlen (episode_rewards s') = maxlen (episode_rewards s).
Proof.
  intros Hs H.
  destruct (collect_step_log _ _ _ _ _ _ H) as [action [Hin E]].
  destruct (deque_fold_keep_last
              (finished_returns (step_infos W (envs s) action))
              (episode_rewards s) Hs) as [Ek Em].
  rewrite <- E in Ek, Em.
  assert (Hm : 0 <= maxlen (episode_rewards s)).
  { unfold deque_size in Hs.
    pose proof (Nat2Z.is_nonneg (length (items (episode_rewards s)))). lia. }
  exists action.
  exists (firstn (length (items (episode_rewards s) ++
                          finished_returns (step_infos W (envs s) action))
                  - Z.to_nat (maxlen (episode_rewards s)))
                 (items (episode_rewards s) ++
                  finished_returns (step_infos W (envs s) action))).
  split; [exact Hin |]. rewrite Ek. unfold keep_last.
  split; [symmetry; apply firstn_skipn |].
  split; [rewrite length_skipn; lia | exact Em].
Qed.

Lemma X10_log_keeps_most_recent_witness :
  exists action dropped,
    In (EvStep action)
       (snd (match collect_step demo_world demo_args 0 (fst demo_after2) with
             | Ok x => x
             | _ => (fst demo_after2, [])
             end))
    /\ items (episode_rewards (fst demo_after2)) ++
       finished_returns
         (step_infos demo_world (envs (fst demo_after2)) action)
       = dropped ++
         items (episode_rewards
                  (fst (match collect_step demo_world demo_args 0
                                (fst demo_after2) with
                        | Ok x => x
                        | _ => (fst demo_after2, [])
                        end)))
    /\ Z.of_nat (length (items (episode_rewards
                  (fst (match collect_step demo_world demo_args 0
                                (fst demo_after2) with
                        | Ok x => x
                        | _ => (fst demo_after2, [])
                        end)))))
       = Z.min (maxlen (episode_rewards (fst demo_after2)))
               (Z.of_nat
                  (length (items (episode_rewards (fst demo_after2)) ++
                           finished_returns
                             (step_infos demo_world
                                (envs (fst demo_after2)) action))))
    /\ maxlen (episode_rewards
                 (fst (match collect_step demo_world demo_args 0
                               (fst demo_after2) with
                       | Ok x => x
                       | _ => (fst demo_after2, [])
                       end)))
       = maxlen (episode_rewards (fst demo_after2)).
Proof.
  apply (X10_log_keeps_most_recent demo_world demo_args 0 (fst demo_after2)).
  - vm_compute. discriminate.
  - vm_compute. reflexivity.
Defined.

(** ** Checkpoint, log line, evaluation and plot within a cycle *)

Lemma log_phase_spec (W : World) (a : Args) (j : Z) (s : State W)
  (ev : list Event) :
  log_phase W a j s = Ok ev ->
  log_interval a <> 0
  /\ ((ev = [EvPrint j ((j + 1) * num_processes a * num_steps a)]
       /\ (log_interval a | j) /\ 2 <= deque_size (episode_rewards s))
      \/ (ev = [] /\ ~ ((log_interval a | j)
                        /\ 2 <= deque_size (episode_rewards s)))).
Proof.
  unfold log_phase. intros H.
  apply bind_ok in H. destruct H as [m [Hm H]].
  apply py_mod_inv in Hm. destruct Hm as [Hi Hm]. subst m.
  split; [exact Hi |].
  pose proof (divisible_check j _ Hi) as Hdiv.
  destruct (j mod log_interval a =? 0) eqn:Em; simpl in H.
  - destruct (Z.gtb_spec (deque_size (episode_rewards s)) 1) as [Hs | Hs];
      inversion H.
    + left. split; [reflexivity |]. split; [apply Hdiv; reflexivity | lia].
    + right. split; [reflexivity |]. intros [_ C]. lia.
  - inversion H. right. split; [reflexivity |].
    intros [C _]. apply Hdiv in C. discriminate.
Qed.

Lemma vis_phase_spec (a : Args) (j : Z) (ev : list Event) :
  vis_phase a j = Ok ev ->
  (ev = [EvVisdom j] /\ vis a = true /\ (vis_interval a | j))
  \/ (ev = [] /\ ~ (vis a = true /\ (vis_interval a | j))).
Proof.
  unfold vis_phase. intros H. destruct (vis a) eqn:Ev.
  - apply bind_ok in H. destruct H as [m [Hm H]].
    apply py_mod_inv in Hm. destruct Hm as [Hi Hm]. subst m.
    pose proof (divisible_check j _ Hi) as Hdiv.
    destruct (j mod vis_interval a =? 0) eqn:Em; inversion H.
    + left. split; [reflexivity |]. split; [reflexivity |].
      apply Hdiv. reflexivity.
    + right. split; [reflexivity |]. intros [_ C].
      apply Hdiv in C. discriminate.
  - inversion H. right. split; [reflexivity |]. intros [C _]. discriminate.
Qed.

Lemma eval_due_false (W : World) (a : Args) (j : Z) (s : State W) :
  eval_due W a j s = Ok false ->
  ~ exists interval,
      eval_interval a = Some interval /\ (interval | j)
      /\ 2 <= deque_size (episode_rewards s).
Proof.
  unfold eval_due. intros H [interval [Hi [Hd Hs]]]. rewrite Hi in H.
  destruct (Z.gtb_spec (deque_size (episode_rewards s)) 1) as [_ | C];
    [| lia].
  apply bind_ok in H. destruct H as [m [Hm H]].
  apply py_mod_inv in Hm. destruct Hm as [Hnz Hm]. subst m.
  inversion H as [Hz].
  apply (divisible_check j _ Hnz) in Hd. congruence.
Qed.

(** The steps of a completed cycle, phase by phase. *)
Lemma cycle_parts (W : World) (a : Args) (n : Z) (fuel : nat) (j : Z)
  (s s' : State W) (ev : list Event) :
  cycle W a n fuel j s = Ok (s', ev) ->
  exists head,
    Forall (fun e => decay_event e \/ collect_event e) head
    /\ ((skip_update a j = Ok true /\ ev = head ++ [EvContinue])
        \/ (skip_update a j = Ok false
            /\ exists evs evl eve evv,
                 save_phase a n j = Ok evs
                 /\ log_phase W a j s' = Ok evl
                 /\ eval_phase W a fuel j s' = Ok eve
                 /\ vis_phase a j = Ok evv
                 /\ ev = head
                         ++ [EvGetValue; EvComputeReturns;
                             EvUpdate (cur_lr s') (cur_clip s');
                             EvAfterUpdate]
                         ++ evs ++ evl ++ eve ++ evv)).
Proof.
  intros H. apply cycle_inv in H.
  destruct H as [s2 [evc [_ [Fc [_ [_ Hcases]]]]]].
  pose proof (decay_phase_events W a n j s) as Fd.
  exists (snd (decay_phase W a n j s) ++ evc). split.
  - apply Forall_app. split.
    + eapply Forall_impl; [| exact Fd]. intros e He. left. exact He.
    + eapply Forall_impl; [| exact Fc]. intros e He. right. exact He.
  - destruct Hcases as [[Hskip [_ E]] | [Hskip [rest [Hp E]]]]; subst ev.
    + left. split; [exact Hskip |]. rewrite app_assoc. reflexivity.
    + right. split; [exact Hskip |].
      destruct Hp as [evs evl eve evv Hu Hs Hl He Hv Er]. subst rest.
      apply update_phase_inv in Hu. destruct Hu as [_ [L [C _]]].
      exists evs, evl, eve, evv. rewrite L, C.
      repeat (split; [assumption |]).
      rewrite <- app_assoc. reflexivity.
Qed.

Lemma head_absent (head : list Event) (e : Event) :
  Forall (fun e => decay_event e \/ collect_event e) head ->
  ~ decay_event e -> ~ collect_event e -> ~ In e head.
Proof.
  intros F Hd Hc Hin. rewrite Forall_forall in F.
  destruct (F e Hin) as [C | C]; [exact (Hd C) | exact (Hc C)].
Qed.

Lemma save_phase_total (a : Args) (n j : Z) :
  save_interval a <> 0 -> exists ev, save_phase a n j = Ok ev.
Proof.
  intros Hi. unfold save_phase. rewrite (py_mod_ok _ _ Hi). simpl.
  destruct (((j mod save_interval a =? 0) || (j =? n - 1))
            && negb (String.eqb (save_dir a) EmptyString));
    eexists; reflexivity.
Qed.

(** X11: a zero [save_interval] or [log_interval] makes every
    update-eligible cycle fail with [ZeroDivisionError], after its update
    has been applied: the only cycles that complete are the ones the gate
    skips. *)
Theorem X11_zero_interval_stops_update_cycles (W : World) (a : Args)
  (n : Z) (fuel : nat) (j : Z) :
  save_interval a = 0 \/ log_interval a = 0 ->
  (forall s2 s3 evu,
     update_phase W s2 = Ok (s3, evu) ->
     after_gate W a n fuel j s2 = Raise ZeroDivisionError)
  /\ (forall s s' ev,
        cycle W a n fuel j s = Ok (s', ev) ->
        skip_update a j = Ok true /\ ~ update_fired ev).
Proof.
  intros Hzero. split.
  - intros s2 s3 evu Hu. unfold after_gate. rewrite Hu. simpl.
    destruct (Z.eq_dec (save_interval a) 0) as [Hs | Hs].
    + unfold save_phase, py_mod. rewrite Hs. reflexivity.
    + destruct (save_phase_total a n j Hs) as [evs Hsave].
      rewrite Hsave. simpl.
      destruct Hzero as [C | Hl]; [contradiction |].
      unfold log_phase, py_mod. rewrite Hl. reflexivity.
  - intros s s' ev H.
    destruct (cycle_parts _ _ _ _ _ _ _ _ H)
      as [head [_ [[Hskip _] | [_ [evs [evl [eve [evv [Hs [Hl _]]]]]]]]]].
    + split; [exact Hskip |]. intros Hu.
      apply (update_fired_iff _ _ _ _ _ _ _ _ H) in Hu. congruence.
    + exfalso. apply save_phase_inv in Hs. destruct Hs as [Hs _].
      apply log_phase_spec in Hl. destruct Hl as [Hl _].
      destruct Hzero; contradiction.
Qed.

Lemma X11_zero_interval_stops_update_cycles_witness :
  (forall s2 s3 evu,
     update_phase demo_world s2 = Ok (s3, evu) ->
     after_gate demo_world args_zero_save 5 20 0 s2
     = Raise ZeroDivisionError)
  /\ (forall s s' ev,
        cycle demo_world args_zero_save 5 20 0 s = Ok (s', ev) ->
        skip_update args_zero_save 0 = Ok true /\ ~ update_fired ev).
Proof.
  apply (X11_zero_interval_stops_update_cycles demo_world args_zero_save
           5 20 0).
  left. reflexivity.
Defined.

(** X12: the log line of lines 189-199 is printed in a completed cycle
    [j] exactly when the gate let the cycle pass, [j] is a multiple of
    [log_interval] and the episode log holds at least two returns; the
    step total it reports is [(j + 1) * num_processes * num_steps], which
    counts the skipped cycles too. *)
Theorem X12_log_line (W : World) (a : Args) (n : Z) (fuel : nat) (j : Z)
  (s s' : State W) (ev : list Event) :
  cycle W a n fuel j s = Ok (s', ev) ->
  forall i t,
    In (EvPrint i t) ev <->
    (i = j /\ t = (j + 1) * num_processes a * num_steps a
     /\ skip_update a j = Ok false
     /\ (log_interval a | j)
     /\ 2 <= deque_size (episode_rewards s')).
Proof.
  intros H i t.
  destruct (cycle_parts _ _ _ _ _ _ _ _ H)
    as [head [Fh [[Hskip E] | [Hskip [evs [evl [eve [evv
         [Hs [Hl [He [Hv E]]]]]]]]]]]]; subst ev.
  - split; [| intros [_ [_ [C _]]]; congruence].
    intros Hin. exfalso. apply in_app_or in Hin. destruct Hin as [Hin | Hin].
    + revert Hin. apply (head_absent _ _ Fh); simpl; auto.
    + simpl in Hin. destruct Hin as [C | C]; [discriminate | contradiction].
  - apply save_phase_inv in Hs. destruct Hs as [_ Hs].
    apply log_phase_spec in Hl. destruct Hl as [_ Hl].
    apply eval_phase_events in He.
    apply vis_phase_spec in Hv.
    split.
    + intros Hin. apply in_app_or in Hin. destruct Hin as [Hin | Hin].
      { exfalso. revert Hin. apply (head_absent _ _ Fh); simpl; auto. }
      apply in_app_or in Hin. destruct Hin as [Hin | Hin].
      { exfalso. simpl in Hin.
        destruct Hin as [C | [C | [C | [C | C]]]];
          try discriminate; contradiction. }
      apply in_app_or in Hin. destruct Hin as [Hin | Hin].
      { exfalso. destruct Hs as [[E _] | [E _]]; subst evs; simpl in Hin;
          [destruct Hin as [C | C]; [discriminate | contradiction]
          | contradiction]. }
      apply in_app_or in Hin. destruct Hin as [Hin | Hin].
      { destruct Hl as [[E [Hd Hsz]] | [E _]]; subst evl; simpl in Hin;
          [| contradiction].
        destruct Hin as [C | C]; [| contradiction].
        inversion C. subst i t. auto. }
      apply in_app_or in Hin. destruct Hin as [Hin | Hin].
      { exfalso. exact (In_class _ _ _ He Hin). }
      exfalso. destruct Hv as [[E _] | [E _]]; subst evv; simpl in Hin;
        [destruct Hin as [C | C]; [discriminate | contradiction]
        | contradiction].
    + intros [Ei [Et [_ [Hd Hsz]]]]. subst i t.
      destruct Hl as [[E _] | [_ C]]; [| exfalso; apply C; auto].
      subst evl.
      apply in_or_app. right. apply in_or_app. right.
      apply in_or_app. right. apply in_or_app. left. simpl. auto.
Qed.

Lemma X12_log_line_witness :
  In (EvPrint 3 16) (snd demo_after3) <->
  (3 = 3 /\ 16 = (3 + 1) * num_processes demo_args * num_steps demo_args
   /\ skip_update demo_args 3 = Ok false
   /\ (log_interval demo_args | 3)
   /\ 2 <= deque_size (episode_rewards (fst demo_after3))).
Proof.
  refine (X12_log_line demo_world demo_args 5 20 3
            (fst demo_after2) (fst demo_after3) (snd demo_after3) _ 3 16).
  vm_compute. reflexivity.
Defined.

(** X13: an evaluation runs in a completed cycle [j] exactly when the
    gate let the cycle pass, [eval_interval] is set, [j] is a multiple of
    it and the episode log holds at least two returns. *)
Theorem X13_evaluation_runs_exactly_when_due (W : World) (a : Args) (n : Z)
  (fuel : nat) (j : Z) (s s' : State W) (ev : list Event) :
  cycle W a n fuel j s = Ok (s', ev) ->
  (evaluation_ran ev <->
   skip_update a j = Ok false
   /\ exists interval,
        eval_interval a = Some interval /\ (interval | j)
        /\ 2 <= deque_size (episode_rewards s')).
Proof.
  intros H. unfold evaluation_ran.
  destruct (cycle_parts _ _ _ _ _ _ _ _ H)
    as [head [Fh [[Hskip E] | [Hskip [evs [evl [eve [evv
         [Hs [Hl [He [Hv E]]]]]]]]]]]]; subst ev.
  - split; [| intros [C _]; congruence].
    intros Hin. exfalso. apply in_app_or in Hin. destruct Hin as [Hin | Hin].
    + revert Hin. apply (head_absent _ _ Fh); simpl; auto.
    + simpl in Hin. destruct Hin as [C | C]; [discriminate | contradiction].
  - apply save_phase_inv in Hs. destruct Hs as [_ Hs].
    apply log_phase_spec in Hl. destruct Hl as [_ Hl].
    apply vis_phase_spec in Hv.
    apply eval_phase_inv in He.
    destruct He as [[Hdue E] | [Hdue [e [evloop [_ E]]]]]; subst eve.
    + split.
      * intros Hin. exfalso.
        apply in_app_or in Hin. destruct Hin as [Hin | Hin].
        { revert Hin. apply (head_absent _ _ Fh); simpl; auto. }
        apply in_app_or in Hin. destruct Hin as [Hin | Hin].
        { simpl in Hin. destruct Hin as [C | [C | [C | [C | C]]]];
            try discriminate; contradiction. }
        apply in_app_or in Hin. destruct Hin as [Hin | Hin].
        { destruct Hs as [[E _] | [E _]]; subst evs; simpl in Hin;
            [destruct Hin as [C | C]; [discriminate | contradiction]
            | contradiction]. }
        apply in_app_or in Hin. destruct Hin as [Hin | Hin].
        { destruct Hl as [[E _] | [E _]]; subst evl; simpl in Hin;
            [destruct Hin as [C | C]; [discriminate | contradiction]
            | contradiction]. }
        simpl in Hin.
        destruct Hv as [[E _] | [E _]]; subst evv; simpl in Hin;
          [destruct Hin as [C | C]; [discriminate | contradiction]
          | contradiction].
      * intros [_ Hex]. exfalso. exact (eval_due_false _ _ _ _ Hdue Hex).
    + split.
      * intros _. split; [exact Hskip |].
        apply eval_due_inv in Hdue.
        destruct Hdue as [interval [Hi [_ [Hd Hsz]]]].
        exists interval. auto.
      * intros _.
        apply in_or_app. right. apply in_or_app. right.
        apply in_or_app. right. apply in_or_app. right.
        apply in_or_app. left.
        apply in_or_app. right. apply in_or_app. right. simpl. auto.
Qed.

Lemma X13_evaluation_runs_exactly_when_due_witness :
  evaluation_ran (snd demo_after3) <->
  skip_update demo_args 3 = Ok false
  /\ exists interval,
       eval_interval demo_args = Some interval /\ (interval | 3)
       /\ 2 <= deque_size (episode_rewards (fst demo_after3)).
Proof.
  apply (X13_evaluation_runs_exactly_when_due demo_world demo_args 5 20 3
           (fst demo_after2) (fst demo_after3) (snd demo_after3)).
  vm_compute. reflexivity.
Defined.

(** X14: the plot of lines 244-250 is drawn in a completed cycle [j]
    exactly when the gate let the cycle pass, [vis] is on and [j] is a
    multiple of [vis_interval]; with [vis] off the interval is never
    looked at. *)
Theorem X14_plot_schedule (W : World) (a : Args) (n : Z) (fuel : nat)
  (j : Z) (s s' : State W) (ev : list Event) :
  cycle W a n fuel j s = Ok (s', ev) ->
  forall i,
    In (EvVisdom i) ev <->
    (i = j /\ skip_update a j = Ok false /\ vis a = true
     /\ (vis_interval a | j)).
Proof.
  intros H i.
  destruct (cycle_parts _ _ _ _ _ _ _ _ H)
    as [head [Fh [[Hskip E] | [Hskip [evs [evl [eve [evv
         [Hs [Hl [He [Hv E]]]]]]]]]]]]; subst ev.
  - split; [| intros [_ [C _]]; congruence].
    intros Hin. exfalso. apply in_app_or in Hin. destruct Hin as [Hin | Hin].
    + revert Hin. apply (head_absent _ _ Fh); simpl; auto.
    + simpl in Hin. destruct Hin as [C | C]; [discriminate | contradiction].
  - apply save_phase_inv in Hs. destruct Hs as [_ Hs].
    apply log_phase_spec in Hl. destruct Hl as [_ Hl].
    apply eval_phase_events in He.
    apply vis_phase_spec in Hv.
    split.
    + intros Hin. apply in_app_or in Hin. destruct Hin as [Hin | Hin].
      { exfalso. revert Hin. apply (head_absent _ _ Fh); simpl; auto. }
      apply in_app_or in Hin. destruct Hin as [Hin | Hin].
      { exfalso. simpl in Hin.
        destruct Hin as [C | [C | [C | [C | C]]]];
          try discriminate; contradiction. }
      apply in_app_or in Hin. destruct Hin as [Hin | Hin].
      { exfalso. destruct Hs as [[E _] | [E _]]; subst evs; simpl in Hin;
          [destruct Hin as [C | C]; [discriminate | contradiction]
          | contradiction]. }
      apply in_app_or in Hin. destruct Hin as [Hin | Hin].
      { exfalso. destruct Hl as [[E _] | [E _]]; subst evl; simpl in Hin;
          [destruct Hin as [C | C]; [discriminate | contradiction]
          | contradiction]. }
      apply in_app_or in Hin. destruct Hin as [Hin | Hin].
      { exfalso. exact (In_class _ _ _ He Hin). }
      destruct Hv as [[E [Hvis Hd]] | [E _]]; subst evv; simpl in Hin;
        [| contradiction].
      destruct Hin as [C | C]; [| contradiction].
      inversion C. subst i. auto.
    + intros [Ei [_ [Hvis Hd]]]. subst i.
      destruct Hv as [[E _] | [_ C]]; [| exfalso; apply C; auto].
      subst evv.
      apply in_or_app. right. apply in_or_app. right.
      apply in_or_app. right. apply in_or_app. right.
      apply in_or_app. right. simpl. auto.
Qed.

Lemma X14_plot_schedule_witness :
  In (EvVisdom 3) (snd vis_cycle3) <->
  (3 = 3 /\ skip_update args_vis 3 = Ok false /\ vis args_vis = true
   /\ (vis_interval args_vis | 3)).
Proof.
  refine (X14_plot_schedule demo_world args_vis 5 20 3
            (fst demo_after2) (fst vis_cycle3) (snd vis_cycle3) _ 3).
  vm_compute. reflexivity.
Defined.

(** X15: a checkpoint is written right after the update of its own cycle:
    in a completed cycle that saves, the four calls of lines 164-169 come
    immediately before [torch.save], nothing of the cycle before them is a
    checkpoint, and the log line, evaluation and plot come after. *)
Theorem X15_checkpoint_follows_update (W : World) (a : Args) (n : Z)
  (fuel : nat) (j : Z) (s s' : State W) (ev : list Event) :
  cycle W a n fuel j s = Ok (s', ev) ->
  In (EvSave j) ev ->
  exists head tail,
    ev = head
         ++ [EvGetValue; EvComputeReturns;
             EvUpdate (cur_lr s') (cur_clip s'); EvAfterUpdate; EvSave j]
         ++ tail
    /\ Forall (fun e => decay_event e \/ collect_event e) head
    /\ Forall (fun e => (exists t, e = EvPrint j t) \/ eval_event e
                        \/ e = EvVisdom j) tail.
Proof.
  intros H Hin.
  destruct (cycle_parts _ _ _ _ _ _ _ _ H)
    as [head [Fh [[Hskip E] | [Hskip [evs [evl [eve [evv
         [Hs [Hl [He [Hv E]]]]]]]]]]]]; subst ev.
  - exfalso. apply in_app_or in Hin. destruct Hin as [Hin | Hin].
    + revert Hin. apply (head_absent _ _ Fh); simpl; auto.
    + simpl in Hin. destruct Hin as [C | C]; [discriminate | contradiction].
  - apply save_phase_inv in Hs. destruct Hs as [_ Hs].
    apply log_phase_spec in Hl. destruct Hl as [_ Hl].
    apply eval_phase_events in He.
    apply vis_phase_spec in Hv.
    destruct Hs as [[E _] | [E _]]; subst evs.
    + exists head, (evl ++ eve ++ evv).
      split; [reflexivity |]. split; [exact Fh |].
      apply Forall_app. split.
      { destruct Hl as [[E _] | [E _]]; subst evl.
        - apply Forall_cons; [| apply Forall_nil].
          left. eexists. reflexivity.
        - apply Forall_nil. }
      apply Forall_app. split.
      { eapply Forall_impl; [| exact He]. intros e Hev. right. left.
        exact Hev. }
      destruct Hv as [[E _] | [E _]]; subst evv.
      * apply Forall_cons; [| apply Forall_nil]. right. right. reflexivity.
      * apply Forall_nil.
    + exfalso.
      apply in_app_or in Hin. destruct Hin as [Hin | Hin].
      { revert Hin. apply (head_absent _ _ Fh); simpl; auto. }
      apply in_app_or in Hin. destruct Hin as [Hin | Hin].
      { simpl in Hin. destruct Hin as [C | [C | [C | [C | C]]]];
          try discriminate; contradiction. }
      simpl in Hin.
      apply in_app_or in Hin. destruct Hin as [Hin | Hin].
      { destruct Hl as [[E _] | [E _]]; subst evl; simpl in Hin;
          [destruct Hin as [C | C]; [discriminate | contradiction]
          | contradiction]. }
      apply in_app_or in Hin. destruct Hin as [Hin | Hin].
      { exact (In_class _ _ _ He Hin). }
      destruct Hv as [[E _] | [E _]]; subst evv; simpl in Hin;
        [destruct Hin as [C | C]; [discriminate | contradiction]
        | contradiction].
Qed.

Lemma X15_checkpoint_follows_update_witness :
  exists head tail,
    snd demo_after0
    = head
      ++ [EvGetValue; EvComputeReturns;
          EvUpdate (cur_lr (fst demo_after0)) (cur_clip (fst demo_after0));
          EvAfterUpdate; EvSave 0]
      ++ tail
    /\ Forall (fun e => decay_event e \/ collect_event e) head
    /\ Forall (fun e => (exists t, e = EvPrint 0 t) \/ eval_event e
                        \/ e = EvVisdom 0) tail.
Proof.
  apply (X15_checkpoint_follows_update demo_world demo_args 5 20 0
           (fst demo_setup) (fst demo_after0) (snd demo_after0)).
  - vm_compute. reflexivity.
  - vm_compute. repeat (first [left; reflexivity | right]).
Defined.

(** ** An evaluation that never ends *)





(** ** The first observation batch *)

Lemma take_length {A : Type} (m : Z) (b : list A) :
  0 <= m <= Z.of_nat (length b) -> Z.of_nat (length (take m b)) = m.
Proof.
  intros Hm. unfold take.
  destruct (Z.ltb_spec m 0) as [C | _]; [lia |].
  rewrite length_firstn. lia.
Qed.

(** X17: line 116 fills the storage width whatever the remainder: for a
    positive [num_rollouts] and a reset batch with one row per worker, the
    batch copied into slot 0 has exactly [num_rollouts] rows, the width
    the storage was built with at line 111, whether or not
    [num_processes] divides [num_rollouts]. *)
Theorem X17_first_batch_fills_the_width (a : Args) (ob : Batch) :
  0 < num_rollouts a -> 1 <= num_processes a ->
  Z.of_nat (length ob) = num_processes a ->
  exists tiled,
    tiled_obs a ob = Ok tiled
    /\ tiled = concat (repeat ob (Z.to_nat (period a)))
               ++ take (num_rollouts a mod num_processes a) ob
    /\ Z.of_nat (length tiled) = num_rollouts a
    /\ Z.of_nat (length tiled) = storage_width a.
Proof.
  intros Hr Hp Hlen. unfold tiled_obs, period.
  rewrite py_floordiv_ok by lia. simpl.
  rewrite py_mod_ok by lia. simpl.
  eexists. split; [reflexivity |].
  pose proof (Z.mod_pos_bound (num_rollouts a) (num_processes a) ltac:(lia))
    as Hm.
  pose proof (Z.div_mod (num_rollouts a) (num_processes a) ltac:(lia))
    as Hdm.
  assert (Hq : 0 <= num_rollouts a / num_processes a)
    by (apply Z.div_pos; lia).
  assert (Hshape :
            concat (repeat ob (Z.to_nat (num_rollouts a / num_processes a))
                    ++ [take (num_rollouts a mod num_processes a) ob])
            = concat (repeat ob
                        (Z.to_nat (num_rollouts a / num_processes a)))
              ++ take (num_rollouts a mod num_processes a) ob).
  { rewrite concat_app. simpl. rewrite app_nil_r. reflexivity. }
  split; [exact Hshape |].
  assert (Hl : Z.of_nat
                 (length
                    (concat (repeat ob
                               (Z.to_nat (num_rollouts a / num_processes a))
                             ++ [take (num_rollouts a mod num_processes a)
                                      ob])))
               = num_rollouts a).
  { rewrite Hshape, length_app, concat_repeat_length.
    rewrite Nat2Z.inj_add, Nat2Z.inj_mul, take_length by lia.
    rewrite Hlen, Z2Nat.id by lia. lia. }
  split; [exact Hl |].
  rewrite Hl. unfold storage_width.
  destruct (Z.gtb_spec (num_rollouts a) 0); [reflexivity | lia].
Qed.

Lemma X17_first_batch_fills_the_width_witness :
  exists tiled,
    tiled_obs demo_args (zeros 2 1) = Ok tiled
    /\ tiled = concat (repeat (zeros 2 1) (Z.to_nat (period demo_args)))
               ++ take (num_rollouts demo_args mod num_processes demo_args)
                       (zeros 2 1)
    /\ Z.of_nat (length tiled) = num_rollouts demo_args
    /\ Z.of_nat (length tiled) = storage_width demo_args.
Proof.
  apply (X17_first_batch_fills_the_width demo_args (zeros 2 1)).
  - simpl. lia.
  - simpl. lia.
  - reflexivity.
Defined.

(** ** The clip schedule over a run *)











(** ** Reading the storage *)



(** ** Set-up after validation *)



(** ** The checkpoint of the last cycle *)

Lemma save_in_cycle (W : World) (a : Args) (n : Z) (fuel : nat) (j : Z)
  (s s' : State W) (ev : list Event) :
  cycle W a n fuel j s = Ok (s', ev) ->
  save_dir a <> EmptyString -> j = n - 1 ->
  (In (EvSave j) ev <-> skip_update a j = Ok false).
Proof.
  intros H Hd Hj.
  destruct (cycle_parts _ _ _ _ _ _ _ _ H)
    as [head [Fh [[Hskip E] | [Hskip [evs [evl [eve [evv
         [Hs [Hl [He [Hv E]]]]]]]]]]]]; subst ev.
  - split; [| intros C; congruence].
    intros Hin. exfalso. apply in_app_or in Hin. destruct Hin as [Hin | Hin].
    + revert Hin. apply (head_absent _ _ Fh); simpl; auto.
    + simpl in Hin. destruct Hin as [C | C]; [discriminate | contradiction].
  - split; [intros _; exact Hskip | intros _].
    apply save_phase_inv in Hs. destruct Hs as [_ Hs].
    destruct Hs as [[E _] | [_ C]]; [| exfalso; apply C; auto].
    subst evs.
    apply in_or_app. right. apply in_or_app. right.
    apply in_or_app. left. simpl. auto.
Qed.

Lemma last_index_in_range (n : Z) : 1 <= n -> In (n - 1) (py_range n).
Proof.
  intros Hn. unfold py_range. apply in_map_iff.
  exists (Z.to_nat (n - 1)). split; [lia |].
  apply in_seq. lia.
Qed.

(** X21: whether a completed run ends with a checkpoint of its final
    policy.  With a non-empty [save_dir] and at least one cycle, the last
    cycle [num_updates - 1] writes a checkpoint exactly when the gate lets
    it pass: always without rollout batching ([num_rollouts <= 0] or
    [num_rollouts == num_processes]), and otherwise only when
    [num_updates - 1] falls on a cycle that is not collection-only. *)
Theorem X21_checkpoint_of_the_last_cycle (W : World) (a : Args) (n : Z)
  (fuel : nat) (s : State W) (ev0 : list Event)
  (log : list (Z * list Event)) :
  1 <= n -> save_dir a <> EmptyString ->
  main W a n fuel = Ok (s, ev0, log) ->
  exists ev,
    In (n - 1, ev) log
    /\ (In (EvSave (n - 1)) ev <-> skip_update a (n - 1) = Ok false)
    /\ (num_rollouts a <= 0
        \/ (num_rollouts a = num_processes a /\ num_processes a <> 0) ->
        In (EvSave (n - 1)) ev)
    /\ (skip_update a (n - 1) = Ok true ->
        forall i, ~ In (EvSave i) ev).
Proof.
  intros Hn Hd H.
  destruct (main_run _ _ _ _ _ _ _ H) as [s0 [_ Hrun]].
  pose proof (run_cycles_indices _ _ _ _ _ _ _ _ Hrun) as Hidx.
  pose proof (last_index_in_range n Hn) as Hlast.
  rewrite <- Hidx in Hlast. apply in_map_iff in Hlast.
  destruct Hlast as [[j ev] [Ej Hin]]. simpl in Ej. subst j.
  exists ev. split; [exact Hin |].
  destruct (run_cycles_entries _ _ _ _ _ _ _ _ Hrun _ _ Hin)
    as [s1 [s2 Hc]].
  pose proof (save_in_cycle _ _ _ _ _ _ _ _ Hc Hd eq_refl) as Hiff.
  split; [exact Hiff |]. split.
  - intros Hcase. apply Hiff. unfold skip_update.
    destruct (Z.gtb_spec (num_rollouts a) 0) as [Hpos | Hle];
      [| reflexivity].
    destruct Hcase as [C | [E Hp]]; [lia |].
    rewrite (py_floordiv_ok _ _ Hp). simpl.
    rewrite E, Z.div_same by exact Hp.
    rewrite py_mod_ok by lia. simpl. rewrite Z.mod_1_r. reflexivity.
  - intros Hskip i Hsave.
    destruct (cycle_parts _ _ _ _ _ _ _ _ Hc)
      as [head [Fh [[_ E] | [C _]]]]; [| congruence].
    subst ev. apply in_app_or in Hsave. destruct Hsave as [Hs | Hs].
    + revert Hs. apply (head_absent _ _ Fh); simpl; auto.
    + simpl in Hs. destruct Hs as [C | C]; [discriminate | contradiction].
Qed.

Lemma X21_checkpoint_of_the_last_cycle_witness :
  exists ev,
    In (5 - 1, ev) (snd demo_run)
    /\ (In (EvSave (5 - 1)) ev <-> skip_update demo_args (5 - 1) = Ok false)
    /\ (num_rollouts demo_args <= 0
        \/ (num_rollouts demo_args = num_processes demo_args
            /\ num_processes demo_args <> 0) ->
        In (EvSave (5 - 1)) ev)
    /\ (skip_update demo_args (5 - 1) = Ok true ->
        forall i, ~ In (EvSave i) ev).
Proof.
  apply (X21_checkpoint_of_the_last_cycle demo_world demo_args 5 20
           (fst (fst demo_run)) (snd (fst demo_run)) (snd demo_run)).
  - lia.
  - discriminate.
  - vm_compute. reflexivity.
Defined.
